(** * e-books-supply: the page scripts and the service worker

    A shallow embedding of

    - [books_app/static/js/main.js]: the page script whose theme indicator
      is an emoji written into the theme toggle control;
    - the second page script (the icon variant), which shows or hides a sun
      and a moon icon instead;
    - [static/sw.js]: the pass-through service worker.

    The scripts mutate the DOM, [localStorage] and the listener table of the
    browser.  They are embedded as computations of a state-and-exception
    monad [JS] over a record [World] that holds exactly the objects the
    scripts touch. *)

From stdpp Require Import base option list strings gmap.

Open Scope string_scope.
Open Scope list_scope.

(** ** Browser objects *)

(** An element, reduced to what the scripts read or write: its attributes,
    its class list (a [DOMTokenList], kept in document order), its text
    content and its inline style. *)
Record Element := mkElement {
  attributes : gmap string string;
  classList : list string;
  textContent : string;
  style : gmap string string
}.

(** The elements the scripts look up, named after the constants that hold
    them.  [None] is the [null] that [getElementById] and [querySelector]
    return when nothing matches.  Distinct lookups are taken to yield
    distinct elements.  [navLinks] is the length of
    [mainNav.querySelectorAll('a')]; [body] is [document.body], which exists
    when [DOMContentLoaded] fires. *)
Record Page := mkPage {
  toggleButton : option Element;   (* #mobile-nav-toggle *)
  mainNav : option Element;        (* .main-nav *)
  navLinks : nat;
  themeToggle : option Element;    (* #theme-toggle *)
  body : Element;                  (* document.body *)
  sunIcon : option Element;        (* .sun-icon *)
  moonIcon : option Element        (* .moon-icon *)
}.

(** Event targets that receive a click listener, and the three listener
    bodies of a page script. *)
Inductive Target :=
  | OnToggleButton
  | OnNavLink (i : nat)
  | OnThemeToggle.

Inductive Handler :=
  | NavToggleClick      (* main.js 9-14 *)
  | NavLinkClick        (* main.js 18-23 *)
  | ThemeToggleClick.   (* main.js 42-50 *)

Inductive Exn :=
  | TypeError (what : string).

Record World := mkWorld {
  page : Page;
  localStorage : gmap string string;
  writes : list (string * string);   (* the calls of setItem, oldest first *)
  listeners : list (Target * Handler);
  uncaught : list Exn                (* exceptions that escaped a listener *)
}.

Global Instance Target_eq_dec : EqDecision Target.
Proof. solve_decision. Defined.
Global Instance Handler_eq_dec : EqDecision Handler.
Proof. solve_decision. Defined.

(** ** Field updates *)

Definition set_attributes (a : gmap string string) (e : Element) : Element :=
  mkElement a (classList e) (textContent e) (style e).
Definition set_classList (c : list string) (e : Element) : Element :=
  mkElement (attributes e) c (textContent e) (style e).
Definition set_textContent (t : string) (e : Element) : Element :=
  mkElement (attributes e) (classList e) t (style e).
Definition set_style (s : gmap string string) (e : Element) : Element :=
  mkElement (attributes e) (classList e) (textContent e) s.

(** References to the looked-up elements; [get] and [put] read and write
    the object a reference points to. *)
Inductive Ref :=
  | ToggleButton | MainNav | ThemeToggle | Body | SunIcon | MoonIcon.

Definition get (r : Ref) (p : Page) : option Element :=
  match r with
  | ToggleButton => toggleButton p
  | MainNav => mainNav p
  | ThemeToggle => themeToggle p
  | Body => Some (body p)
  | SunIcon => sunIcon p
  | MoonIcon => moonIcon p
  end.

Definition put (r : Ref) (e : Element) (p : Page) : Page :=
  match r with
  | ToggleButton =>
      mkPage (Some e) (mainNav p) (navLinks p) (themeToggle p) (body p)
             (sunIcon p) (moonIcon p)
  | MainNav =>
      mkPage (toggleButton p) (Some e) (navLinks p) (themeToggle p) (body p)
             (sunIcon p) (moonIcon p)
  | ThemeToggle =>
      mkPage (toggleButton p) (mainNav p) (navLinks p) (Some e) (body p)
             (sunIcon p) (moonIcon p)
  | Body =>
      mkPage (toggleButton p) (mainNav p) (navLinks p) (themeToggle p) e
             (sunIcon p) (moonIcon p)
  | SunIcon =>
      mkPage (toggleButton p) (mainNav p) (navLinks p) (themeToggle p) (body p)
             (Some e) (moonIcon p)
  | MoonIcon =>
      mkPage (toggleButton p) (mainNav p) (navLinks p) (themeToggle p) (body p)
             (sunIcon p) (Some e)
  end.

Definition set_page (p : Page) (w : World) : World :=
  mkWorld p (localStorage w) (writes w) (listeners w) (uncaught w).
Definition set_localStorage (s : gmap string string)
    (l : list (string * string)) (w : World) : World :=
  mkWorld (page w) s l (listeners w) (uncaught w).
Definition set_listeners (l : list (Target * Handler)) (w : World) : World :=
  mkWorld (page w) (localStorage w) (writes w) l (uncaught w).
Definition set_uncaught (u : list Exn) (w : World) : World :=
  mkWorld (page w) (localStorage w) (writes w) (listeners w) u.

(** ** The monad of script code

    A computation runs on the world and completes normally with a value or
    abruptly with an exception.  Writes made before a [throw] stay. *)
Inductive Completion (A : Type) :=
  | Normal (a : A)
  | Throw (e : Exn).
Arguments Normal {A} a.
Arguments Throw {A} e.

Definition JS (A : Type) : Type := World → Completion A * World.

Definition ret {A} (a : A) : JS A := λ w, (Normal a, w).
Definition throw {A} (e : Exn) : JS A := λ w, (Throw e, w).
Definition bind {A B} (m : JS A) (k : A → JS B) : JS B :=
  λ w, match m w with
       | (Normal a, w') => k a w'
       | (Throw e, w') => (Throw e, w')
       end.

Notation "'let*' x ':=' m 'in' k" := (bind m (λ x, k))
  (at level 10, x name, m at level 100, k at level 200, only parsing).
Notation "m >> k" := (bind m (λ _, k))
  (at level 100, k at level 200, right associativity, only parsing).

Definition when (b : bool) (m : JS unit) : JS unit := if b then m else ret tt.

(** [r.f = v] and [r.m(...)] on a reference: a [TypeError] on [null]. *)
Definition update (r : Ref) (name : string) (f : Element → Element) : JS unit :=
  λ w, match get r (page w) with
       | Some e => (Normal tt, set_page (put r (f e) (page w)) w)
       | None => (Throw (TypeError name), w)
       end.

Definition read {A} (r : Ref) (name : string) (f : Element → A) : JS A :=
  λ w, match get r (page w) with
       | Some e => (Normal (f e), w)
       | None => (Throw (TypeError name), w)
       end.

(** [r] used as a condition: [null] is falsy, an element is truthy. *)
Definition truthy (r : Ref) : JS bool :=
  λ w, (Normal (match get r (page w) with Some _ => true | None => false end), w).

(** [arr.forEach(f)] over the indices of an array. *)
Fixpoint forEach (l : list nat) (f : nat → JS unit) : JS unit :=
  match l with
  | [] => ret tt
  | i :: l' => f i >> forEach l' f
  end.

(** ** DOM and storage primitives *)

Definition getAttribute (n : string) (e : Element) : option string :=
  attributes e !! n.
Definition setAttribute (n v : string) (e : Element) : Element :=
  set_attributes (<[n := v]> (attributes e)) e.

Definition contains (c : string) (e : Element) : bool :=
  bool_decide (c ∈ classList e).
Definition remove (c : string) (e : Element) : Element :=
  set_classList (filter (λ x, x ≠ c) (classList e)) e.
Definition add (c : string) (e : Element) : Element :=
  if contains c e then e else set_classList (classList e ++ [c]) e.
Definition toggle (c : string) (e : Element) : Element :=
  if contains c e then remove c e else add c e.

Definition set_display (v : string) (e : Element) : Element :=
  set_style (<["display" := v]> (style e)) e.

Definition getItem (k : string) : JS (option string) :=
  λ w, (Normal (localStorage w !! k), w).
Definition setItem (k v : string) : JS unit :=
  λ w, (Normal tt,
        set_localStorage (<[k := v]> (localStorage w)) (writes w ++ [(k, v)]) w).

Definition addEventListener (t : Target) (h : Handler) : JS unit :=
  λ w, (Normal tt, set_listeners (listeners w ++ [(t, h)]) w).

(** [String(b)], the conversion [setAttribute] applies to a boolean. *)
Definition String_of_bool (b : bool) : string := if b then "true" else "false".

(** [v || d] on the result of [getItem]: [null] and the empty string are
    falsy. *)
Definition or_default (v : option string) (d : string) : string :=
  match v with
  | Some s => if bool_decide (s = "") then d else s
  | None => d
  end.

Definition sun_emoji : string := "☀️".
Definition moon_emoji : string := "🌙".

(** ** The page script

    Both page scripts share every line except the indicator update
    ([updateEmoji] in [main.js], [updateIcons] in the icon variant), so the
    shared text is embedded once, over that function. *)
Section Script.

Variable updateIndicator : string → JS unit.

(** [mainNav.querySelectorAll('a')], as the indices of the links. *)
Definition querySelectorAll_a : JS (list nat) :=
  λ w, (Normal (seq 0 (navLinks (page w))), w).

(** Lines 9-14: the listener of [toggleButton]; [this] is the button. *)
Definition navToggle_click : JS unit :=
  update MainNav "classList.toggle" (toggle "is-open") >>
  let* isExpanded :=
    read ToggleButton "getAttribute"
      (λ this, bool_decide (getAttribute "aria-expanded" this = Some "true")) in
  update ToggleButton "setAttribute"
    (setAttribute "aria-expanded" (String_of_bool (negb isExpanded))).

(** Lines 18-23: the listener of every link of the navigation. *)
Definition navLink_click : JS unit :=
  let* isOpen := read MainNav "classList.contains" (contains "is-open") in
  when isOpen
    (update MainNav "classList.remove" (remove "is-open") >>
     update ToggleButton "setAttribute" (setAttribute "aria-expanded" "false")).

(** Lines 4-25: 1. MENU TOGGLE. *)
Definition menu_toggle : JS unit :=
  let* hasButton := truthy ToggleButton in
  let* hasNav := truthy MainNav in
  when (hasButton && hasNav)
    (addEventListener OnToggleButton NavToggleClick >>
     let* links := querySelectorAll_a in
     forEach links (λ i, addEventListener (OnNavLink i) NavLinkClick)).

(** The listener of [themeToggle] (lines 42-50 of [main.js]). *)
Definition themeToggle_click : JS unit :=
  let* currentTheme := read Body "getAttribute" (getAttribute "data-theme") in
  let newTheme :=
    if bool_decide (currentTheme = Some "dark") then "light" else "dark" in
  update Body "setAttribute" (setAttribute "data-theme" newTheme) >>
  setItem "theme" newTheme >>
  updateIndicator newTheme.

(** 2. THEME TOGGLE: the preference read from the storage is applied and
    shown, then the listener is attached (lines 28-51 of [main.js]). *)
Definition theme_toggle : JS unit :=
  let* stored := getItem "theme" in
  let savedTheme := or_default stored "light" in
  update Body "setAttribute" (setAttribute "data-theme" savedTheme) >>
  updateIndicator savedTheme >>
  let* hasToggle := truthy ThemeToggle in
  when hasToggle (addEventListener OnThemeToggle ThemeToggleClick).

(** The whole [DOMContentLoaded] listener. *)
Definition DOMContentLoaded : JS unit :=
  menu_toggle >> theme_toggle.

Definition handler (h : Handler) : JS unit :=
  match h with
  | NavToggleClick => navToggle_click
  | NavLinkClick => navLink_click
  | ThemeToggleClick => themeToggle_click
  end.

(** Running a listener: an exception that escapes it is reported and the
    writes made so far stay. *)
Definition run (m : JS unit) (w : World) : World :=
  match m w with
  | (Normal _, w') => w'
  | (Throw e, w') => set_uncaught (uncaught w' ++ [e]) w'
  end.

(** A click on [t] runs, in registration order, the listeners attached
    to [t]. *)
Definition dispatch (t : Target) (w : World) : World :=
  foldl (λ w' th, if decide (th.1 = t) then run (handler th.2) w' else w')
        w (listeners w).

(** Loading a page with markup [p] while storage holds [st]. *)
Definition load (p : Page) (st : gmap string string) : World :=
  run DOMContentLoaded (mkWorld p st [] [] []).

(** A reload keeps the storage and nothing else. *)
Definition reload (p : Page) (w : World) : World :=
  load p (localStorage w).

Definition clicks (ts : list Target) (w : World) : World :=
  foldl (λ w' t, dispatch t w') w ts.

End Script.

(** [books_app/static/js/main.js] *)
Module MainJs.

(** Lines 35-37. *)
Definition updateEmoji (theme : string) : JS unit :=
  let* hasToggle := truthy ThemeToggle in
  when hasToggle
    (update ThemeToggle "textContent"
       (set_textContent
          (if bool_decide (theme = "dark") then sun_emoji else moon_emoji))).

Definition DOMContentLoaded : JS unit := DOMContentLoaded updateEmoji.
Definition dispatch : Target → World → World := dispatch updateEmoji.
Definition load : Page → gmap string string → World := load updateEmoji.
Definition reload : Page → World → World := reload updateEmoji.
Definition clicks : list Target → World → World := clicks updateEmoji.

End MainJs.

(** The icon variant of the page script. *)
Module IconJs.

(** Lines 37-45. *)
Definition updateIcons (theme : string) : JS unit :=
  if bool_decide (theme = "dark") then
    update SunIcon "style" (set_display "none") >>
    update MoonIcon "style" (set_display "inline")
  else
    update SunIcon "style" (set_display "inline") >>
    update MoonIcon "style" (set_display "none").

Definition DOMContentLoaded : JS unit := DOMContentLoaded updateIcons.
Definition dispatch : Target → World → World := dispatch updateIcons.
Definition load : Page → gmap string string → World := load updateIcons.
Definition reload : Page → World → World := reload updateIcons.
Definition clicks : list Target → World → World := clicks updateIcons.

End IconJs.

(** ** Observations *)

(** The navigation container carries the class [is-open]. *)
Definition nav_open (w : World) : bool :=
  match mainNav (page w) with
  | Some nav => contains "is-open" nav
  | None => false
  end.

(** The [aria-expanded] attribute of the toggle control. *)
Definition aria_expanded (w : World) : option string :=
  toggleButton (page w) ≫= getAttribute "aria-expanded".

(** The [data-theme] attribute of the document body. *)
Definition data_theme (w : World) : option string :=
  getAttribute "data-theme" (body (page w)).

(** The preference as the next load will read it (line 32). *)
Definition savedTheme (st : gmap string string) : string :=
  or_default (st !! "theme") "light".

(** Modelled from the spec: the markup of the page is not part of the
    sources.  The spec describes the menu state as "a CSS class plus an ARIA
    attribute mirror" that is "reset on page reload", and its scenario starts
    from "menu closed": in the markup the attribute says [true] exactly when
    the container is marked open (so, for a closed menu, it is ["false"] or
    missing). *)
Definition mirrored (p : Page) : Prop :=
  ∀ btn nav, toggleButton p = Some btn → mainNav p = Some nav →
    (contains "is-open" nav = true ↔ getAttribute "aria-expanded" btn = Some "true").

(** Open means [true] and closed means [false]. *)
Definition lockstep (w : World) : Prop :=
  (nav_open w = true → aria_expanded w = Some "true") ∧
  (nav_open w = false → aria_expanded w = Some "false").

(** The listeners a page script attaches for the menu and for the theme. *)
Definition nav_listeners (p : Page) : list (Target * Handler) :=
  match toggleButton p, mainNav p with
  | Some _, Some _ =>
      (OnToggleButton, NavToggleClick)
        :: map (λ i, (OnNavLink i, NavLinkClick)) (seq 0 (navLinks p))
  | _, _ => []
  end.

Definition theme_listeners (p : Page) : list (Target * Handler) :=
  match themeToggle p with
  | Some _ => [(OnThemeToggle, ThemeToggleClick)]
  | None => []
  end.

Definition is_nav_handler (h : Handler) : bool :=
  match h with
  | NavToggleClick | NavLinkClick => true
  | ThemeToggleClick => false
  end.

(** The theme a click moves to from the body attribute [cur] (line 44). *)
Definition newTheme (cur : option string) : string :=
  if bool_decide (cur = Some "dark") then "light" else "dark".

(** The emoji [updateEmoji] shows for a theme. *)
Definition emoji_of (theme : string) : string :=
  if bool_decide (theme = "dark") then sun_emoji else moon_emoji.

(** The menu elements are both on the page. *)
Definition has_menu (p : Page) : Prop :=
  is_Some (toggleButton p) ∧ is_Some (mainNav p).

(** Open exactly when the attribute says [true]. *)
Definition in_step (w : World) : Prop :=
  nav_open w = true ↔ aria_expanded w = Some "true".

(** The listeners of [l] that a click on [t] runs. *)
Definition listening (t : Target) (l : list (Target * Handler)) : list Handler :=
  (filter (λ th, th.1 = t) l).*2.

(** The listeners of the world are those the script attaches for the menu,
    followed, when [th] is set, by the one it attaches for the theme. *)
Definition wired (th : bool) (w : World) : Prop :=
  listeners w
  = nav_listeners (page w) ++ (if th then theme_listeners (page w) else []).

(** Both icons of the icon variant are on the page. *)
Definition has_icons (p : Page) : bool :=
  match sunIcon p, moonIcon p with
  | Some _, Some _ => true
  | _, _ => false
  end.

(** The listeners of [l] that belong to the menu. *)
Definition nav_handlers (l : list (Target * Handler)) : list (Target * Handler) :=
  filter (λ th, is_nav_handler th.2 = true) l.

(** What a theme controller shows to the outside: the attribute of the
    document, the stored preferences and the writes to the storage. *)
Definition theme_view (w : World)
    : option string * gmap string string * list (string * string) :=
  (data_theme w, localStorage w, writes w).

(** The worlds a session goes through: after the load, then after each
    click. *)
Fixpoint history (step : Target → World → World) (ts : list Target) (w : World)
    : list World :=
  match ts with
  | [] => [w]
  | t :: ts' => w :: history step ts' (step t w)
  end.

(** [w'] differs from [w] at most in the two elements of the menu. *)
Definition menu_only (w w' : World) : Prop :=
  navLinks (page w') = navLinks (page w) ∧
  themeToggle (page w') = themeToggle (page w) ∧
  body (page w') = body (page w) ∧
  sunIcon (page w') = sunIcon (page w) ∧
  moonIcon (page w') = moonIcon (page w) ∧
  localStorage w' = localStorage w ∧
  writes w' = writes w ∧
  listeners w' = listeners w ∧
  uncaught w' = uncaught w.

(** [w'] has the menu, the listeners and the reported exceptions of [w]. *)
Definition theme_only (w w' : World) : Prop :=
  toggleButton (page w') = toggleButton (page w) ∧
  mainNav (page w') = mainNav (page w) ∧
  navLinks (page w') = navLinks (page w) ∧
  listeners w' = listeners w ∧
  uncaught w' = uncaught w.

(** What a click on the theme toggle does to the theme: the new theme goes
    to the document and, under the key [theme], to the storage. *)
Definition theme_flipped (w w' : World) : Prop :=
  data_theme w' = Some (newTheme (data_theme w)) ∧
  localStorage w' = <["theme" := newTheme (data_theme w)]> (localStorage w) ∧
  writes w' = writes w ++ [("theme", newTheme (data_theme w))].

(** What a click on a link of the navigation does to the menu. *)
Definition link_click_ok (step : Target → World → World) (i : nat) (w : World)
    : Prop :=
  (nav_open w = true →
     nav_open (step (OnNavLink i) w) = false ∧
     aria_expanded (step (OnNavLink i) w) = Some "false") ∧
  (nav_open w = false → step (OnNavLink i) w = w).

(** The document shows the preference the next load would read. *)
Definition theme_applied (w : World) : Prop :=
  data_theme w = Some (savedTheme (localStorage w)).

(** What every click of a session keeps or grants. *)
Record session_step (w w' : World) : Prop := {
  step_menu : has_menu (page w) ↔ has_menu (page w');
  step_links : navLinks (page w') = navLinks (page w);
  step_toggle : is_Some (themeToggle (page w)) ↔ is_Some (themeToggle (page w'));
  step_icons : has_icons (page w') = has_icons (page w);
  step_uncaught : uncaught w' = uncaught w;
  step_in_step : in_step w → in_step w';
  step_lockstep : lockstep w → lockstep w';
  step_applied : theme_applied w → theme_applied w'
}.

(** The two variants, run side by side: [we] is a world of [main.js], [wi]
    one of the icon variant, [th] tells whether the icon variant got to
    attach its theme listener. *)
Definition same_theme (th : bool) (we wi : World) : Prop :=
  theme_view we = theme_view wi ∧
  wired true we ∧
  wired th wi ∧
  (th = true → has_icons (page wi) = true) ∧
  (is_Some (themeToggle (page we)) ↔ is_Some (themeToggle (page wi))) ∧
  (is_Some (themeToggle (page wi)) → th = true).

(** ** Further observations *)

(** The number of clicks on the theme toggle in a sequence of clicks. *)
Definition theme_clicks (ts : list Target) : nat :=
  length (filter (λ t, t = OnThemeToggle) ts).

(** The theme [n] clicks after the theme [t] (line 44, iterated). *)
Definition theme_after (n : nat) (t : string) : string :=
  Nat.iter n (λ x, newTheme (Some x)) t.

(** The theme toggle of [main.js] shows the emoji of the theme that is on
    the document. *)
Definition emoji_shown (w : World) : Prop :=
  ∀ e, themeToggle (page w) = Some e →
    ∃ t, data_theme w = Some t ∧ textContent e = emoji_of t.

(** The icons show the theme that is on the document: the moon alone for
    ["dark"], the sun alone for anything else. *)
Definition icons_shown (w : World) : Prop :=
  ∀ s m, sunIcon (page w) = Some s → moonIcon (page w) = Some m →
    ∃ t, data_theme w = Some t ∧
         style s !! "display"
         = Some (if bool_decide (t = "dark") then "none" else "inline") ∧
         style m !! "display"
         = Some (if bool_decide (t = "dark") then "inline" else "none").


(** The storage holds the theme that is on the document. *)
Definition theme_stored (w : World) : Prop :=
  localStorage w !! "theme" = data_theme w.

(** A write of the theme listener: the key [theme] with one of the two
    themes. *)
Definition theme_write (kv : string * string) : Prop :=
  kv.1 = "theme" ∧ (kv.2 = "light" ∨ kv.2 = "dark").

(** The view of the theme [n] effective clicks after a load that read the
    theme [t0] with the storage at [st]: the theme after [n] clicks is on
    the document and, once there was a click, in the storage; the writes are
    the themes after 1, 2, ... [n] clicks. *)
Definition theme_trace (n : nat) (t0 : string) (st : gmap string string)
    : option string * gmap string string * list (string * string) :=
  (Some (theme_after n t0),
   match n with
   | 0 => st
   | S _ => <["theme" := theme_after n t0]> st
   end,
   (λ i, ("theme", theme_after i t0)) <$> seq 1 n).

(** The clicks of a sequence that reach the theme listener of a page
    script: those on the theme toggle, when the listener is attached. *)
Definition effective_clicks (attached : bool) (ts : list Target) : nat :=
  if attached then theme_clicks ts else 0.

(** The theme toggle is on the page. *)
Definition has_toggle (p : Page) : bool :=
  match themeToggle p with Some _ => true | None => false end.

(** ** Sample pages *)

(** A page with every element the scripts look up; the menu is closed. *)
Definition sample_page : Page :=
  mkPage
    (Some (mkElement {["aria-expanded" := "false"]} ["nav-toggle"] "" ∅))
    (Some (mkElement ∅ ["main-nav"] "" ∅))
    3
    (Some (mkElement ∅ [] "" ∅))
    (mkElement ∅ [] "" ∅)
    (Some (mkElement ∅ ["sun-icon"] "" ∅))
    (Some (mkElement ∅ ["moon-icon"] "" ∅)).

(** A page with none of them. *)
Definition bare_page : Page :=
  mkPage None None 0 None (mkElement ∅ [] "" ∅) None None.

(** A page with the menu and the theme toggle, without the icons. *)
Definition iconless_page : Page :=
  mkPage (toggleButton sample_page) (mainNav sample_page) 3
    (themeToggle sample_page) (body sample_page) None None.

(** The sample page with markup that says [true] on a closed menu. *)
Definition skewed_page : Page :=
  mkPage
    (Some (mkElement {["aria-expanded" := "true"]} ["nav-toggle"] "" ∅))
    (mainNav sample_page) 3
    (themeToggle sample_page) (body sample_page)
    (sunIcon sample_page) (moonIcon sample_page).

(** The sample page without its moon icon. *)
Definition moonless_page : Page :=
  mkPage (toggleButton sample_page) (mainNav sample_page) 3
    (themeToggle sample_page) (body sample_page) (sunIcon sample_page) None.

(** ** The service worker, [static/sw.js] *)
Module ServiceWorker.

Record Request := mkRequest {
  url : string;
  method : string;
  headers : list (string * string)
}.

Record Response := mkResponse {
  status : nat;
  payload : string
}.

(** A settled promise of a response. *)
Inductive Settled :=
  | Fulfilled (r : Response)
  | Rejected (reason : string).

(** What the worker can observe or change: the console, the cache storage
    (cache name, then URL) and the requests put on the network so far. *)
Record Scope := mkScope {
  console : list string;
  caches : gmap string (gmap string Response);
  sent : list Request
}.

(** A fetch event: the intercepted request and what [respondWith] was
    given, if it was called. *)
Record FetchEvent := mkFetchEvent {
  request : Request;
  respondedWith : option Settled
}.

Definition console_log (msg : string) (s : Scope) : Scope :=
  mkScope (console s ++ [msg]) (caches s) (sent s).

Definition respondWith (r : Settled) (event : FetchEvent) : FetchEvent :=
  mkFetchEvent (request event) (Some r).

Section Network.

(** The network answers a request, possibly depending on the traffic
    before it. *)
Variable network : list Request → Request → Settled.

(** The global [fetch]. *)
Definition fetch (r : Request) (s : Scope) : Settled * Scope :=
  (network (sent s) r, mkScope (console s) (caches s) (sent s ++ [r])).

(** Lines 3-5: the [install] listener. *)
Definition on_install (s : Scope) : Scope :=
  console_log "Service Worker: Installed" s.

(** Lines 7-11: the [fetch] listener. *)
Definition on_fetch (event : FetchEvent) (s : Scope) : FetchEvent * Scope :=
  let '(r, s') := fetch (request event) s in
  (respondWith r event, s').

(** What the page receives for an intercepted request: the response the
    listener supplied. *)
Definition intercepted (req : Request) (s : Scope) : option Settled * Scope :=
  let '(event, s') := on_fetch (mkFetchEvent req None) s in
  (respondedWith event, s').

(** The pass-through of the spec: the request goes to the network as it
    is, and the page receives what the network answers. *)
Definition pass_through_spec (req : Request) (s : Scope) : option Settled * Scope :=
  (Some (network (sent s) req), mkScope (console s) (caches s) (sent s ++ [req])).

End Network.

(** A network that is down, a request and a fresh worker scope. *)
Definition offline : list Request → Request → Settled :=
  λ _ _, Rejected "Failed to fetch".

Definition sample_request : Request :=
  mkRequest "/books/" "GET" [("Accept", "text/html")].

Definition fresh_scope : Scope := mkScope [] ∅ [].

(** The events the browser sends to the worker, and a worker life: each
    event goes to its listener, and the page collects the responses to its
    requests. *)
Inductive Event :=
  | Install
  | Fetch (req : Request).

Definition requests (evs : list Event) : list Request :=
  omap (λ ev, match ev with Install => None | Fetch req => Some req end) evs.

Fixpoint installs (evs : list Event) : nat :=
  match evs with
  | [] => 0
  | Install :: evs' => S (installs evs')
  | Fetch _ :: evs' => installs evs'
  end.

Section Life.

Variable network : list Request → Request → Settled.

Definition handle (ev : Event) (s : Scope) : option Settled * Scope :=
  match ev with
  | Install => (None, on_install s)
  | Fetch req => intercepted network req s
  end.

Fixpoint serve (evs : list Event) (s : Scope) : list Settled * Scope :=
  match evs with
  | [] => ([], s)
  | ev :: evs' =>
      let '(r, s1) := handle ev s in
      let '(rs, s2) := serve evs' s1 in
      (match r with Some x => x :: rs | None => rs end, s2)
  end.

(** The same requests without a worker: each goes to the network after the
    traffic before it. *)
Fixpoint direct (reqs : list Request) (traffic : list Request) : list Settled :=
  match reqs with
  | [] => []
  | req :: reqs' => network traffic req :: direct reqs' (traffic ++ [req])
  end.

End Life.

End ServiceWorker.

(** * Properties *)

(** ** The class list and the attributes *)

Lemma contains_remove c e : contains c (remove c e) = false.
Proof.
  unfold contains, remove; simpl. apply bool_decide_eq_false.
  rewrite list_elem_of_filter. tauto.
Qed.

Lemma contains_add c e : contains c (add c e) = true.
Proof.
  unfold add. destruct (contains c e) eqn:E; [done|].
  unfold contains; simpl. apply bool_decide_eq_true. set_solver.
Qed.

Lemma contains_toggle c e : contains c (toggle c e) = negb (contains c e).
Proof.
  unfold toggle. destruct (contains c e) eqn:E; simpl.
  - apply contains_remove.
  - apply contains_add.
Qed.

Lemma getAttribute_setAttribute n v e :
  getAttribute n (setAttribute n v e) = Some v.
Proof. unfold getAttribute, setAttribute; simpl. apply lookup_insert_eq. Qed.

Lemma newTheme_cases cur : newTheme cur = "light" ∨ newTheme cur = "dark".
Proof. unfold newTheme. case_bool_decide; auto. Qed.

Lemma newTheme_nonempty cur : newTheme cur ≠ "".
Proof. unfold newTheme. by case_bool_decide. Qed.

Lemma savedTheme_insert v st :
  v ≠ "" → savedTheme (<["theme" := v]> st) = v.
Proof.
  intros Hv. unfold savedTheme. rewrite lookup_insert_eq. simpl.
  by rewrite bool_decide_eq_false_2.
Qed.

(** ** Listener registration *)

Lemma forEach_addEventListener (f : nat → Target) h l w :
  forEach l (λ i, addEventListener (f i) h) w
  = (Normal tt, set_listeners (listeners w ++ map (λ i, (f i, h)) l) w).
Proof.
  revert w. induction l as [|i l IH]; intros w; simpl.
  - unfold ret, set_listeners. rewrite app_nil_r. by destruct w.
  - unfold bind, addEventListener at 1. rewrite IH. simpl.
    unfold set_listeners; simpl. by rewrite <- app_assoc.
Qed.

Lemma menu_toggle_eq w :
  menu_toggle w
  = (Normal tt, set_listeners (listeners w ++ nav_listeners (page w)) w).
Proof.
  destruct w as [[tb mn k tt bd su mo] st wr ls un].
  unfold menu_toggle, bind, truthy, nav_listeners, when;
    cbn [page get toggleButton mainNav navLinks listeners].
  destruct tb as [b|], mn as [n|]; cbn [andb];
    try (unfold ret, set_listeners; simpl; by rewrite app_nil_r).
  unfold bind, addEventListener at 1, querySelectorAll_a.
  rewrite forEach_addEventListener. unfold set_listeners; simpl.
  by rewrite <- app_assoc.
Qed.

(** ** Which listeners a click runs *)

Lemma listening_app t l1 l2 :
  listening t (l1 ++ l2) = listening t l1 ++ listening t l2.
Proof. unfold listening. by rewrite filter_app, fmap_app. Qed.

Lemma listening_links_other t h l :
  (∀ i, t ≠ OnNavLink i) →
  listening t (map (λ i, (OnNavLink i, h)) l) = [].
Proof.
  intros Ht. induction l as [|j l IH]; [done|].
  unfold listening in *. simpl. rewrite filter_cons. simpl.
  destruct (decide (OnNavLink j = t)) as [E|E]; [by destruct (Ht j)|done].
Qed.

Lemma listening_links i h a k :
  listening (OnNavLink i) (map (λ j, (OnNavLink j, h)) (seq a k))
  = if decide (a ≤ i < a + k) then [h] else [].
Proof.
  revert a. induction k as [|k IH]; intros a.
  - simpl. destruct (decide _); [lia|done].
  - unfold listening in *. simpl. rewrite filter_cons. simpl.
    destruct (decide (OnNavLink a = OnNavLink i)) as [E|E].
    + inversion E; subst. simpl. rewrite IH.
      destruct (decide (S i ≤ i < _)); [lia|].
      destruct (decide _); [done|lia].
    + rewrite IH. assert (a ≠ i) by congruence.
      repeat destruct (decide _); try done; lia.
Qed.

Lemma dispatch_listening u t w :
  dispatch u t w
  = foldl (λ w' h, run (handler u h) w') w (listening t (listeners w)).
Proof.
  unfold dispatch, listening. generalize (listeners w) as l.
  intros l. revert w. induction l as [|[t' h] l IH]; intros w; [done|].
  simpl. rewrite filter_cons. simpl.
  destruct (decide (t' = t)); simpl; apply IH.
Qed.

Lemma listening_theme_part t (th : bool) p :
  listening t (if th then theme_listeners p else [])
  = match t, th, themeToggle p with
    | OnThemeToggle, true, Some _ => [ThemeToggleClick]
    | _, _, _ => []
    end.
Proof.
  unfold theme_listeners. destruct th, (themeToggle p), t; done.
Qed.

Lemma listening_theme_listeners t p :
  listening t (theme_listeners p)
  = match t, themeToggle p with
    | OnThemeToggle, Some _ => [ThemeToggleClick]
    | _, _ => []
    end.
Proof. unfold theme_listeners. destruct (themeToggle p), t; done. Qed.

Lemma listening_nav_part t p :
  listening t (nav_listeners p)
  = match toggleButton p, mainNav p, t with
    | Some _, Some _, OnToggleButton => [NavToggleClick]
    | Some _, Some _, OnNavLink i =>
        if decide (i < navLinks p) then [NavLinkClick] else []
    | _, _, _ => []
    end.
Proof.
  unfold nav_listeners.
  destruct (toggleButton p), (mainNav p); try (by destruct t).
  destruct t as [|i|].
  - change (listening OnToggleButton ((OnToggleButton, NavToggleClick) :: ?l))
      with (NavToggleClick :: listening OnToggleButton l).
    by rewrite listening_links_other.
  - change (listening (OnNavLink i) ((OnToggleButton, NavToggleClick) :: ?l))
      with (listening (OnNavLink i) l).
    rewrite listening_links. repeat destruct (decide _); try done; lia.
  - change (listening OnThemeToggle ((OnToggleButton, NavToggleClick) :: ?l))
      with (listening OnThemeToggle l).
    by rewrite listening_links_other.
Qed.

Lemma dispatch_wired u th t w :
  wired th w →
  dispatch u t w
  = foldl (λ w' h, run (handler u h) w') w
      (listening t (nav_listeners (page w))
       ++ listening t (if th then theme_listeners (page w) else [])).
Proof. intros Hw. by rewrite dispatch_listening, Hw, listening_app. Qed.

(** ** The listeners, as functions on the world *)

Lemma navToggle_click_eq w b n :
  toggleButton (page w) = Some b → mainNav (page w) = Some n →
  navToggle_click w
  = (Normal tt,
     set_page
       (put ToggleButton
          (setAttribute "aria-expanded"
             (String_of_bool
                (negb (bool_decide (getAttribute "aria-expanded" b = Some "true"))))
             b)
          (put MainNav (toggle "is-open" n) (page w))) w).
Proof.
  destruct w as [[tb mn k tt bd su mo] st wr ls un]; simpl.
  intros -> ->. reflexivity.
Qed.

Lemma navLink_click_eq w b n :
  toggleButton (page w) = Some b → mainNav (page w) = Some n →
  navLink_click w
  = (Normal tt,
     if contains "is-open" n
     then set_page
            (put ToggleButton (setAttribute "aria-expanded" "false" b)
               (put MainNav (remove "is-open" n) (page w))) w
     else w).
Proof.
  destruct w as [[tb mn k tt bd su mo] st wr ls un]; simpl.
  intros -> ->. unfold navLink_click, bind, read; simpl.
  destruct (contains "is-open" n); reflexivity.
Qed.

(** A click on the toggle control or on a link, whatever the indicator. *)
Lemma dispatch_toggle u th w b n :
  wired th w → toggleButton (page w) = Some b → mainNav (page w) = Some n →
  dispatch u OnToggleButton w
  = set_page
      (put ToggleButton
         (setAttribute "aria-expanded"
            (String_of_bool
               (negb (bool_decide (getAttribute "aria-expanded" b = Some "true"))))
            b)
         (put MainNav (toggle "is-open" n) (page w))) w.
Proof.
  intros Hw Hb Hn. rewrite (dispatch_wired u th) by done.
  rewrite listening_nav_part, listening_theme_part, Hb, Hn. simpl. unfold run.
  by rewrite (navToggle_click_eq w b n).
Qed.

Lemma dispatch_link u th i w b n :
  wired th w → toggleButton (page w) = Some b → mainNav (page w) = Some n →
  i < navLinks (page w) →
  dispatch u (OnNavLink i) w
  = if contains "is-open" n
    then set_page
           (put ToggleButton (setAttribute "aria-expanded" "false" b)
              (put MainNav (remove "is-open" n) (page w))) w
    else w.
Proof.
  intros Hw Hb Hn Hi. rewrite (dispatch_wired u th) by done.
  rewrite listening_nav_part, listening_theme_part, Hb, Hn.
  destruct (decide _); [|lia]. simpl. unfold run.
  by rewrite (navLink_click_eq w b n).
Qed.

(** A click that no listener hears changes nothing. *)
Lemma dispatch_toggle_none u th w :
  wired th w → ¬ has_menu (page w) → dispatch u OnToggleButton w = w.
Proof.
  intros Hw Hm. rewrite (dispatch_wired u th) by done.
  rewrite listening_nav_part, listening_theme_part. unfold has_menu in Hm.
  destruct (toggleButton (page w)), (mainNav (page w)); try done.
  destruct Hm; eauto.
Qed.

Lemma dispatch_link_none u th i w :
  wired th w → ¬ has_menu (page w) ∨ (navLinks (page w) ≤ i)%nat →
  dispatch u (OnNavLink i) w = w.
Proof.
  intros Hw Hm. rewrite (dispatch_wired u th) by done.
  rewrite listening_nav_part, listening_theme_part. unfold has_menu in Hm.
  destruct (toggleButton (page w)), (mainNav (page w)); try done.
  destruct (decide _); [|done]. destruct Hm as [Hm|Hm]; [|lia].
  destruct Hm; eauto.
Qed.

Lemma dispatch_theme_none u th w :
  wired th w → th = false ∨ themeToggle (page w) = None →
  dispatch u OnThemeToggle w = w.
Proof.
  intros Hw Ht. rewrite (dispatch_wired u th) by done.
  rewrite listening_nav_part, listening_theme_part.
  destruct (toggleButton (page w)), (mainNav (page w));
    destruct Ht as [->| ->]; simpl; try done; by destruct th.
Qed.

Lemma has_menu_dec p : has_menu p ∨ ¬ has_menu p.
Proof.
  unfold has_menu. destruct (toggleButton p), (mainNav p); eauto;
    right; intros [[? ?] [? ?]]; discriminate.
Qed.

(** ** The menu *)

(** One click on the menu, on a page whose listeners are in place: the
    listeners stay, everything but the menu stays, and the menu stays in
    step. *)
Lemma nav_step u th t w :
  t ≠ OnThemeToggle → wired th w →
  wired th (dispatch u t w) ∧
  menu_only w (dispatch u t w) ∧
  (has_menu (page w) ↔ has_menu (page (dispatch u t w))) ∧
  (in_step w → in_step (dispatch u t w)) ∧
  (lockstep w → lockstep (dispatch u t w)) ∧
  (t = OnToggleButton → has_menu (page w) → in_step w →
   lockstep (dispatch u t w)).
Proof.
  intros Ht Hw. destruct t as [|i|]; [| |done].
  - destruct (has_menu_dec (page w)) as [[[b Hb] [n Hn]]|Hm].
    + rewrite (dispatch_toggle u th w b n) by done.
      destruct w as [[tb mn k tt bd su mo] st wr ls un].
      unfold wired, has_menu, in_step, lockstep, nav_open, aria_expanded,
        menu_only in *.
      simpl in *. subst tb mn. simpl.
      rewrite contains_toggle, getAttribute_setAttribute.
      split_and!; try done; try (by eauto); try (split; by eauto);
        destruct (contains "is-open" n); case_bool_decide as Ha; simpl;
        intuition congruence.
    + rewrite (dispatch_toggle_none u th) by done.
      split_and!; try tauto; done.
  - destruct (has_menu_dec (page w)) as [[[b Hb] [n Hn]]|Hm];
      [destruct (decide (i < navLinks (page w))) as [Hi|Hi]|].
    + rewrite (dispatch_link u th i w b n) by done.
      destruct w as [[tb mn k tt bd su mo] st wr ls un].
      unfold wired, has_menu, in_step, lockstep, nav_open, aria_expanded,
        menu_only in *.
      simpl in *. subst tb mn. simpl.
      destruct (contains "is-open" n) eqn:Hc; simpl;
        rewrite ?contains_remove, ?getAttribute_setAttribute, ?Hc;
        split_and!; try done; try (by eauto); try (split; by eauto);
        intuition congruence.
    + rewrite (dispatch_link_none u th) by first [done | right; lia].
      split_and!; try tauto; done.
    + rewrite (dispatch_link_none u th) by first [done | by left].
      split_and!; try tauto; done.
Qed.

(** ** The theme in [main.js] *)

Lemma updateEmoji_eq theme w :
  MainJs.updateEmoji theme w
  = (Normal tt,
     match themeToggle (page w) with
     | Some t => set_page (put ThemeToggle (set_textContent (emoji_of theme) t) (page w)) w
     | None => w
     end).
Proof.
  destruct w as [[tb mn k tt bd su mo] st wr ls un]; simpl.
  unfold MainJs.updateEmoji, bind, truthy, when, update; simpl.
  destruct tt; reflexivity.
Qed.

Lemma mainjs_load_eq p st :
  MainJs.load p st
  = mkWorld
      (mkPage (toggleButton p) (mainNav p) (navLinks p)
         (set_textContent (emoji_of (savedTheme st)) <$> themeToggle p)
         (setAttribute "data-theme" (savedTheme st) (body p))
         (sunIcon p) (moonIcon p))
      st [] (nav_listeners p ++ theme_listeners p) [].
Proof.
  unfold MainJs.load, load, run, DOMContentLoaded, bind.
  rewrite menu_toggle_eq.
  unfold theme_toggle, bind, getItem, update;
    cbn [localStorage set_listeners page get].
  rewrite updateEmoji_eq.
  destruct p as [tb mn k tt bd su mo].
  unfold theme_listeners, truthy, when, addEventListener, ret, savedTheme.
  destruct tt; simpl; rewrite ?app_nil_r; reflexivity.
Qed.

Lemma mainjs_dispatch_theme w t :
  wired true w → themeToggle (page w) = Some t →
  MainJs.dispatch OnThemeToggle w
  = mkWorld
      (mkPage (toggleButton (page w)) (mainNav (page w)) (navLinks (page w))
         (Some (set_textContent (emoji_of (newTheme (data_theme w))) t))
         (setAttribute "data-theme" (newTheme (data_theme w)) (body (page w)))
         (sunIcon (page w)) (moonIcon (page w)))
      (<["theme" := newTheme (data_theme w)]> (localStorage w))
      (writes w ++ [("theme", newTheme (data_theme w))])
      (listeners w) (uncaught w).
Proof.
  intros Hw Ht. unfold MainJs.dispatch. rewrite (dispatch_wired _ true) by done.
  rewrite listening_nav_part, listening_theme_listeners, Ht.
  assert (match toggleButton (page w), mainNav (page w) with
          | Some _, Some _ => []
          | _, _ => []
          end = @nil Handler) as ->
    by (by destruct (toggleButton (page w)), (mainNav (page w))).
  simpl. unfold run, themeToggle_click, bind, read, update, setItem.
  cbn [get page]. rewrite updateEmoji_eq.
  destruct w as [[tb mn k tt bd su mo] st wr ls un]; simpl in *. by subst.
Qed.

(** One click on the theme toggle of [main.js]. *)
Lemma mainjs_theme_step w :
  wired true w →
  wired true (MainJs.dispatch OnThemeToggle w) ∧
  theme_only w (MainJs.dispatch OnThemeToggle w) ∧
  (is_Some (themeToggle (page w)) ↔
   is_Some (themeToggle (page (MainJs.dispatch OnThemeToggle w)))) ∧
  has_icons (page (MainJs.dispatch OnThemeToggle w)) = has_icons (page w) ∧
  (is_Some (themeToggle (page w)) →
   theme_flipped w (MainJs.dispatch OnThemeToggle w)) ∧
  (themeToggle (page w) = None → MainJs.dispatch OnThemeToggle w = w).
Proof.
  intros Hw. destruct (themeToggle (page w)) as [e|] eqn:He.
  - rewrite (mainjs_dispatch_theme w e) by done.
    destruct w as [[tb mn k tt bd su mo] st wr ls un].
    unfold wired, theme_only, theme_flipped, data_theme, has_icons in *.
    simpl in *.
    subst tt. rewrite getAttribute_setAttribute.
    split_and!; try done; try (by eauto).
  - unfold MainJs.dispatch. rewrite (dispatch_theme_none _ true) by auto.
    rewrite He. split_and!; try done; by intros [? ?].
Qed.

(** ** Sessions *)

Lemma theme_only_nav w w' :
  theme_only w w' → nav_open w' = nav_open w ∧ aria_expanded w' = aria_expanded w.
Proof.
  unfold theme_only, nav_open, aria_expanded. intros (-> & -> & _). done.
Qed.

Lemma menu_only_view w w' : menu_only w w' → theme_view w' = theme_view w.
Proof.
  unfold menu_only, theme_view, data_theme.
  intros (_ & _ & -> & _ & _ & -> & -> & _). done.
Qed.

Lemma theme_flipped_applied w w' : theme_flipped w w' → theme_applied w'.
Proof.
  unfold theme_flipped, theme_applied. intros (-> & -> & _).
  by rewrite savedTheme_insert by apply newTheme_nonempty.
Qed.

Lemma session_step_refl w : session_step w w.
Proof. by constructor. Qed.

Lemma session_step_trans w1 w2 w3 :
  session_step w1 w2 → session_step w2 w3 → session_step w1 w3.
Proof.
  intros [] []. constructor; try tauto; congruence.
Qed.

Lemma menu_only_session_step w w' :
  menu_only w w' →
  (has_menu (page w) ↔ has_menu (page w')) →
  (in_step w → in_step w') → (lockstep w → lockstep w') →
  session_step w w'.
Proof.
  intros Hm Hmenu Hin Hlock. pose proof (menu_only_view _ _ Hm) as Hv.
  destruct Hm as (Hk & Ht & Hb & Hs & Ho & Hst & Hwr & Hl & Hu).
  constructor; try done.
  - by rewrite Ht.
  - unfold has_icons. by rewrite Hs, Ho.
  - unfold theme_applied, data_theme. by rewrite Hb, Hst.
Qed.

Lemma theme_only_session_step w w' :
  theme_only w w' →
  (is_Some (themeToggle (page w)) ↔ is_Some (themeToggle (page w'))) →
  has_icons (page w') = has_icons (page w) →
  (theme_applied w → theme_applied w') →
  session_step w w'.
Proof.
  intros Ht Hp Hi Ha. destruct (theme_only_nav _ _ Ht) as [Ho He].
  destruct Ht as (Hb & Hn & Hk & Hl & Hu).
  constructor; try done.
  - unfold has_menu. by rewrite Hb, Hn.
  - unfold in_step. by rewrite Ho, He.
  - unfold lockstep. by rewrite Ho, He.
Qed.

(** Every click of [main.js] is a step of the session. *)
Lemma mainjs_step t w :
  wired true w →
  wired true (MainJs.dispatch t w) ∧ session_step w (MainJs.dispatch t w).
Proof.
  intros Hw. destruct (decide (t = OnThemeToggle)) as [->|Ht].
  - destruct (mainjs_theme_step w Hw) as (Hw' & Ho & Hp & Hi & Hf & Hn).
    split; [done|]. apply theme_only_session_step; try done.
    destruct (themeToggle (page w)) as [e|] eqn:He.
    + intros _. apply (theme_flipped_applied w). eauto.
    + by rewrite Hn.
  - destruct (nav_step MainJs.updateEmoji true t w Ht Hw)
      as (Hw' & Hm & Hmenu & Hin & Hlock & _).
    split; [done|]. by apply menu_only_session_step.
Qed.

(** ** The theme in the icon variant *)

Lemma updateIcons_eq theme w s m :
  sunIcon (page w) = Some s → moonIcon (page w) = Some m →
  IconJs.updateIcons theme w
  = (Normal tt,
     set_page
       (put MoonIcon
          (set_display (if bool_decide (theme = "dark") then "inline" else "none") m)
          (put SunIcon
             (set_display (if bool_decide (theme = "dark") then "none" else "inline") s)
             (page w))) w).
Proof.
  destruct w as [[tb mn k tt bd su mo] st wr ls un]; simpl.
  intros -> ->. unfold IconJs.updateIcons. case_bool_decide; reflexivity.
Qed.

(** Without one of the icons, the update ends in a [TypeError]; what it
    wrote before is at most the display of the sun icon. *)
Lemma updateIcons_fault theme w :
  has_icons (page w) = false →
  ∃ w', IconJs.updateIcons theme w = (Throw (TypeError "style"), w') ∧
        theme_only w w' ∧
        themeToggle (page w') = themeToggle (page w) ∧
        body (page w') = body (page w) ∧
        has_icons (page w') = false ∧
        localStorage w' = localStorage w ∧
        writes w' = writes w.
Proof.
  destruct w as [[tb mn k tt bd su mo] st wr ls un].
  unfold has_icons, IconJs.updateIcons, theme_only; simpl.
  destruct su as [s|], mo as [m|]; try done; intros _;
    case_bool_decide; eexists; (split; [reflexivity|]); done.
Qed.

Lemma iconjs_load_eq p st s m :
  sunIcon p = Some s → moonIcon p = Some m →
  IconJs.load p st
  = mkWorld
      (mkPage (toggleButton p) (mainNav p) (navLinks p) (themeToggle p)
         (setAttribute "data-theme" (savedTheme st) (body p))
         (Some (set_display
                  (if bool_decide (savedTheme st = "dark") then "none" else "inline") s))
         (Some (set_display
                  (if bool_decide (savedTheme st = "dark") then "inline" else "none") m)))
      st [] (nav_listeners p ++ theme_listeners p) [].
Proof.
  intros Hs Hm. unfold IconJs.load, load, run, DOMContentLoaded, bind.
  rewrite menu_toggle_eq.
  unfold theme_toggle, bind, getItem, update;
    cbn [localStorage set_listeners page get].
  rewrite (updateIcons_eq _ _ s m) by done.
  destruct p as [tb mn k tt bd su mo]. simpl in *. subst su mo.
  unfold theme_listeners, truthy, when, addEventListener, ret, savedTheme.
  destruct tt; simpl; rewrite ?app_nil_r; reflexivity.
Qed.

(** Loading the icon variant on a page that lacks an icon: the theme is on
    the document, the menu is wired, and the listener ends in a
    [TypeError] before the theme toggle is wired. *)
Lemma iconjs_load_fault p st :
  has_icons p = false →
  let w := IconJs.load p st in
  uncaught w = [TypeError "style"] ∧
  listeners w = nav_listeners p ∧
  toggleButton (page w) = toggleButton p ∧
  mainNav (page w) = mainNav p ∧
  navLinks (page w) = navLinks p ∧
  themeToggle (page w) = themeToggle p ∧
  body (page w) = setAttribute "data-theme" (savedTheme st) (body p) ∧
  has_icons (page w) = false ∧
  localStorage w = st ∧
  writes w = [].
Proof.
  intros Hi w. subst w. unfold IconJs.load, load, run, DOMContentLoaded, bind.
  rewrite menu_toggle_eq.
  unfold theme_toggle, bind, getItem, update;
    cbn [localStorage set_listeners page get].
  match goal with
  | |- context [IconJs.updateIcons ?t ?w0] =>
      destruct (updateIcons_fault t w0) as (w' & -> & Ho & Ht & Hb & Hi' & Hs & Hw);
        [exact Hi|]
  end.
  destruct Ho as (Hbtn & Hnav & Hk & Hl & Hu).
  simpl in *. rewrite Hu, Hl, Hbtn, Hnav, Hk, Ht, Hb, Hs, Hw. done.
Qed.

Lemma iconjs_load_wired p st : wired (has_icons p) (IconJs.load p st).
Proof.
  destruct (has_icons p) eqn:Hi.
  - unfold has_icons in Hi.
    destruct (sunIcon p) as [s|] eqn:Hs; [|done].
    destruct (moonIcon p) as [m|] eqn:Hm; [|done].
    rewrite (iconjs_load_eq p st s m) by done. unfold wired. by destruct p.
  - destruct (iconjs_load_fault p st Hi) as (_ & Hl & Hb & Hn & Hk & _).
    unfold wired, nav_listeners. rewrite Hl, Hb, Hn, Hk, app_nil_r. done.
Qed.

Lemma iconjs_dispatch_theme w t s m :
  wired true w → themeToggle (page w) = Some t →
  sunIcon (page w) = Some s → moonIcon (page w) = Some m →
  IconJs.dispatch OnThemeToggle w
  = mkWorld
      (mkPage (toggleButton (page w)) (mainNav (page w)) (navLinks (page w))
         (Some t)
         (setAttribute "data-theme" (newTheme (data_theme w)) (body (page w)))
         (Some (set_display
                  (if bool_decide (newTheme (data_theme w) = "dark")
                   then "none" else "inline") s))
         (Some (set_display
                  (if bool_decide (newTheme (data_theme w) = "dark")
                   then "inline" else "none") m)))
      (<["theme" := newTheme (data_theme w)]> (localStorage w))
      (writes w ++ [("theme", newTheme (data_theme w))])
      (listeners w) (uncaught w).
Proof.
  intros Hw Ht Hs Hm. unfold IconJs.dispatch.
  rewrite (dispatch_wired _ true) by done.
  rewrite listening_nav_part, listening_theme_listeners, Ht.
  assert (match toggleButton (page w), mainNav (page w) with
          | Some _, Some _ => []
          | _, _ => []
          end = @nil Handler) as ->
    by (by destruct (toggleButton (page w)), (mainNav (page w))).
  simpl. unfold run, themeToggle_click, bind, read, update, setItem.
  cbn [get page]. rewrite (updateIcons_eq _ _ s m) by done.
  destruct w as [[tb mn k tt bd su mo] st wr ls un]; simpl in *. by subst.
Qed.

(** One click on the theme toggle of the icon variant. *)
Lemma iconjs_theme_step th w :
  wired th w → (th = true → has_icons (page w) = true) →
  wired th (IconJs.dispatch OnThemeToggle w) ∧
  theme_only w (IconJs.dispatch OnThemeToggle w) ∧
  (is_Some (themeToggle (page w)) ↔
   is_Some (themeToggle (page (IconJs.dispatch OnThemeToggle w)))) ∧
  has_icons (page (IconJs.dispatch OnThemeToggle w)) = has_icons (page w) ∧
  (th = true → is_Some (themeToggle (page w)) →
   theme_flipped w (IconJs.dispatch OnThemeToggle w)) ∧
  (th = false ∨ themeToggle (page w) = None →
   IconJs.dispatch OnThemeToggle w = w).
Proof.
  intros Hw Hi.
  assert (th = false ∨ themeToggle (page w) = None →
          IconJs.dispatch OnThemeToggle w = w) as Hnone.
  { intros H. unfold IconJs.dispatch. by rewrite (dispatch_theme_none _ th). }
  destruct th; [|rewrite Hnone by auto; split_and!; done].
  destruct (themeToggle (page w)) as [e|] eqn:He;
    [|rewrite Hnone by auto; rewrite He; split_and!; try done; by intros [? ?]].
  specialize (Hi eq_refl). unfold has_icons in Hi.
  destruct (sunIcon (page w)) as [s|] eqn:Hs; [|done].
  destruct (moonIcon (page w)) as [m|] eqn:Hm; [|done].
  rewrite (iconjs_dispatch_theme w e s m) by done.
  destruct w as [[tb mn k tt bd su mo] st wr ls un].
  unfold wired, theme_only, theme_flipped, data_theme, has_icons in *.
  simpl in *. subst tt su mo. rewrite getAttribute_setAttribute.
  split_and!; try done; try (by eauto). intros [?|?]; done.
Qed.

(** Every click of the icon variant is a step of the session. *)
Lemma iconjs_step th t w :
  wired th w ∧ (th = true → has_icons (page w) = true) →
  (wired th (IconJs.dispatch t w) ∧
   (th = true → has_icons (page (IconJs.dispatch t w)) = true)) ∧
  session_step w (IconJs.dispatch t w).
Proof.
  intros [Hw Hi]. destruct (decide (t = OnThemeToggle)) as [->|Ht].
  - destruct (iconjs_theme_step th w Hw Hi) as (Hw' & Ho & Hp & Hi' & Hf & Hn).
    assert (session_step w (IconJs.dispatch OnThemeToggle w)) as Hs.
    { apply theme_only_session_step; try done.
      destruct th; [|by rewrite Hn by auto].
      destruct (themeToggle (page w)) as [e|] eqn:He.
      - intros _. apply (theme_flipped_applied w). eauto.
      - by rewrite Hn by auto. }
    split_and!; try done. rewrite (step_icons _ _ Hs). done.
  - destruct (nav_step IconJs.updateIcons th t w Ht Hw)
      as (Hw' & Hm & Hmenu & Hin & Hlock & _).
    assert (session_step w (IconJs.dispatch t w)) as Hs
      by (by apply menu_only_session_step).
    split_and!; try done. rewrite (step_icons _ _ Hs). done.
Qed.

(** ** Whole sessions *)

Section Sessions.

Variable u : string → JS unit.
Variable th : bool.
Variable I : World → Prop.
Hypothesis I_wired : ∀ w, I w → wired th w.
Hypothesis I_step :
  ∀ t w, I w → I (dispatch u t w) ∧ session_step w (dispatch u t w).

Lemma clicks_cons t ts w : clicks u (t :: ts) w = clicks u ts (dispatch u t w).
Proof. reflexivity. Qed.

Lemma clicks_session ts w :
  I w → I (clicks u ts w) ∧ session_step w (clicks u ts w).
Proof.
  revert w. induction ts as [|t ts IH]; intros w Hw.
  - split; [done|apply session_step_refl].
  - rewrite clicks_cons. destruct (I_step t w Hw) as [Hw' Hs].
    destruct (IH _ Hw') as [Hw'' Hs'].
    split; [done|]. by eapply session_step_trans.
Qed.

(** From a page in step, a session with a click on the toggle control
    ends in lockstep. *)
Lemma clicks_lockstep ts w :
  I w → has_menu (page w) → in_step w → OnToggleButton ∈ ts →
  lockstep (clicks u ts w).
Proof.
  revert w. induction ts as [|t ts IH]; intros w Hw Hm Hin Hts.
  - by apply elem_of_nil in Hts.
  - rewrite clicks_cons. destruct (I_step t w Hw) as [Hw' Hs].
    destruct (decide (t = OnToggleButton)) as [->|Ht].
    + destruct (nav_step u th OnToggleButton w) as (_ & _ & _ & _ & _ & Hl);
        [done|by apply I_wired|].
      destruct (clicks_session ts _ Hw') as [_ Hs'].
      apply (step_lockstep _ _ Hs'). by apply Hl.
    + apply IH; [done|by apply (step_menu _ _ Hs)|by apply (step_in_step _ _ Hs)|].
      apply elem_of_cons in Hts as [?|?]; [congruence|done].
Qed.

End Sessions.

Lemma mainjs_load_wired p st : wired true (MainJs.load p st).
Proof.
  rewrite mainjs_load_eq. unfold wired, theme_listeners, nav_listeners.
  by destruct p as [tb mn k [t|] bd su mo].
Qed.

Lemma mainjs_session p st ts :
  wired true (MainJs.clicks ts (MainJs.load p st)) ∧
  session_step (MainJs.load p st) (MainJs.clicks ts (MainJs.load p st)).
Proof.
  apply (clicks_session MainJs.updateEmoji (wired true)).
  - intros t w Hw. by apply mainjs_step.
  - apply mainjs_load_wired.
Qed.

Lemma iconjs_session p st ts :
  wired (has_icons p) (IconJs.clicks ts (IconJs.load p st)) ∧
  session_step (IconJs.load p st) (IconJs.clicks ts (IconJs.load p st)).
Proof.
  destruct (clicks_session IconJs.updateIcons
              (λ w, wired (has_icons p) w ∧
                    (has_icons p = true → has_icons (page w) = true))
              (iconjs_step (has_icons p)) ts (IconJs.load p st)) as [[? ?] ?];
    [|done].
  split; [apply iconjs_load_wired|].
  intros Hi. unfold has_icons in Hi.
  destruct (sunIcon p) as [s|] eqn:Hs; [|done].
  destruct (moonIcon p) as [m|] eqn:Hm; [|done].
  by rewrite (iconjs_load_eq p st s m).
Qed.

(** What the load keeps of the markup of the menu. *)
Lemma load_menu w p :
  toggleButton (page w) = toggleButton p → mainNav (page w) = mainNav p →
  has_menu p →
  has_menu (page w) ∧ (mirrored p → in_step w).
Proof.
  intros Hb Hn. unfold has_menu, in_step, nav_open, aria_expanded, mirrored.
  rewrite Hb, Hn. intros [[b Eb] [n En]]. split; [eauto|]. intros Hm.
  rewrite Eb, En. by apply Hm.
Qed.

Lemma mainjs_load_menu p st :
  has_menu p →
  has_menu (page (MainJs.load p st)) ∧ (mirrored p → in_step (MainJs.load p st)).
Proof. apply load_menu; by rewrite mainjs_load_eq. Qed.

Lemma iconjs_load_frame p st :
  toggleButton (page (IconJs.load p st)) = toggleButton p ∧
  mainNav (page (IconJs.load p st)) = mainNav p ∧
  navLinks (page (IconJs.load p st)) = navLinks p ∧
  themeToggle (page (IconJs.load p st)) = themeToggle p ∧
  body (page (IconJs.load p st))
  = setAttribute "data-theme" (savedTheme st) (body p) ∧
  has_icons (page (IconJs.load p st)) = has_icons p ∧
  localStorage (IconJs.load p st) = st ∧
  writes (IconJs.load p st) = [].
Proof.
  destruct (has_icons p) eqn:Hi.
  - unfold has_icons in Hi.
    destruct (sunIcon p) as [s|] eqn:Hs; [|done].
    destruct (moonIcon p) as [m|] eqn:Hm; [|done].
    by rewrite (iconjs_load_eq p st s m).
  - destruct (iconjs_load_fault p st Hi) as (_ & _ & ? & ? & ? & ? & ? & ? & ? & ?).
    done.
Qed.

Lemma iconjs_load_menu p st :
  has_menu p →
  has_menu (page (IconJs.load p st)) ∧ (mirrored p → in_step (IconJs.load p st)).
Proof.
  destruct (iconjs_load_frame p st) as (? & ? & _). by apply load_menu.
Qed.

(** A click on a link, on a page whose listeners are in place. *)
Lemma link_click_step u th i w :
  wired th w → has_menu (page w) → i < navLinks (page w) →
  link_click_ok (dispatch u) i w.
Proof.
  intros Hw [[b Hb] [n Hn]] Hi. unfold link_click_ok.
  rewrite (dispatch_link u th i w b n) by done.
  unfold nav_open. rewrite Hn.
  destruct (contains "is-open" n) eqn:Hc; split; try done. intros _.
  destruct w as [[tb mn k tt bd su mo] st wr ls un].
  unfold aria_expanded; simpl.
  by rewrite contains_remove, getAttribute_setAttribute.
Qed.

(** ** The claims about the menu *)

(** C1.  On [main.js], from the initial state of a page whose markup has the
    attribute mirror the class, every sequence of clicks that contains a
    click on the toggle control (other clicks, on links or on the theme
    toggle, may come between) ends with the class [is-open] and the
    attribute [aria-expanded] in lockstep: open means ["true"] and closed
    means ["false"].  Taking every prefix of a sequence of toggle clicks
    gives the state after each click. *)
Theorem nav_toggle_lockstep (p : Page) (st : gmap string string) (ts : list Target) :
  has_menu p → mirrored p → OnToggleButton ∈ ts →
  lockstep (MainJs.clicks ts (MainJs.load p st)).
Proof.
  intros Hm Hp Hts. destruct (mainjs_load_menu p st Hm) as [Hm' Hin].
  apply (clicks_lockstep MainJs.updateEmoji true (wired true)); auto.
  - intros t w Hw. by apply mainjs_step.
  - apply mainjs_load_wired.
Qed.

Lemma nav_toggle_lockstep_witness :
  has_menu sample_page ∧ mirrored sample_page ∧
  lockstep (MainJs.clicks [OnToggleButton; OnNavLink 1; OnToggleButton; OnToggleButton]
              (MainJs.load sample_page ∅)).
Proof.
  assert (has_menu sample_page) as Hm by (split; eexists; reflexivity).
  assert (mirrored sample_page) as Hp.
  { intros btn nav [= <-] [= <-]. vm_compute. split; intros H; discriminate H. }
  split_and!; [done|done|].
  apply (nav_toggle_lockstep sample_page ∅); [done|done|].
  apply list_elem_of_here.
Defined.

(** C4.  In both page scripts, at any point of a session on a page that has
    the menu, a click on a link of the navigation closes an open menu and
    sets the attribute to ["false"]; on a closed menu it changes nothing at
    all. *)
Theorem nav_link_click (p : Page) (st : gmap string string) (ts : list Target)
    (i : nat) :
  has_menu p → i < navLinks p →
  link_click_ok MainJs.dispatch i (MainJs.clicks ts (MainJs.load p st)) ∧
  link_click_ok IconJs.dispatch i (IconJs.clicks ts (IconJs.load p st)).
Proof.
  intros Hm Hi. split.
  - destruct (mainjs_session p st ts) as [Hw Hs].
    destruct (mainjs_load_menu p st Hm) as [Hm' _].
    apply (link_click_step _ true); [done|by apply (step_menu _ _ Hs)|].
    rewrite (step_links _ _ Hs). by rewrite mainjs_load_eq.
  - destruct (iconjs_session p st ts) as [Hw Hs].
    destruct (iconjs_load_menu p st Hm) as [Hm' _].
    destruct (iconjs_load_frame p st) as (_ & _ & Hk & _).
    apply (link_click_step _ (has_icons p)); [done|by apply (step_menu _ _ Hs)|].
    rewrite (step_links _ _ Hs). by rewrite Hk.
Qed.

Lemma nav_link_click_witness :
  has_menu sample_page ∧ 2 < navLinks sample_page ∧
  link_click_ok MainJs.dispatch 2
    (MainJs.clicks [OnToggleButton] (MainJs.load sample_page ∅)) ∧
  link_click_ok IconJs.dispatch 2
    (IconJs.clicks [OnToggleButton] (IconJs.load sample_page ∅)).
Proof.
  assert (has_menu sample_page) as Hm by (split; eexists; reflexivity).
  assert (2 < navLinks sample_page) as Hi by (simpl; lia).
  split_and!; [done|done|apply nav_link_click|apply nav_link_click]; done.
Defined.

(** ** The claims about the theme *)

Lemma mainjs_load_theme p st :
  data_theme (MainJs.load p st) = Some (savedTheme st) ∧
  localStorage (MainJs.load p st) = st ∧
  writes (MainJs.load p st) = [] ∧
  uncaught (MainJs.load p st) = [] ∧
  (is_Some (themeToggle p) ↔ is_Some (themeToggle (page (MainJs.load p st)))).
Proof.
  rewrite mainjs_load_eq. unfold data_theme; simpl.
  rewrite getAttribute_setAttribute. split_and!; try done.
  destruct (themeToggle p); simpl; split; intros [? ?]; eauto; done.
Qed.

Lemma mainjs_load_applied p st : theme_applied (MainJs.load p st).
Proof.
  unfold theme_applied. destruct (mainjs_load_theme p st) as (-> & -> & _). done.
Qed.

(** At any point of a session of [main.js] on a page with the theme toggle,
    a click on it flips the theme. *)
Lemma mainjs_theme_click p st ts :
  is_Some (themeToggle p) →
  theme_flipped (MainJs.clicks ts (MainJs.load p st))
    (MainJs.dispatch OnThemeToggle (MainJs.clicks ts (MainJs.load p st))).
Proof.
  intros Ht. destruct (mainjs_session p st ts) as [Hw Hs].
  destruct (mainjs_theme_step _ Hw) as (_ & _ & _ & _ & Hf & _).
  apply Hf. apply (step_toggle _ _ Hs). by apply mainjs_load_theme.
Qed.

Lemma savedTheme_dark st : st !! "theme" = Some "dark" → savedTheme st = "dark".
Proof. unfold savedTheme. by intros ->. Qed.

Lemma savedTheme_default st :
  st !! "theme" = None ∨ st !! "theme" = Some "" → savedTheme st = "light".
Proof. unfold savedTheme. by intros [-> | ->]. Qed.

Lemma savedTheme_verbatim st s :
  st !! "theme" = Some s → s ≠ "" → savedTheme st = s.
Proof.
  unfold savedTheme. intros -> Hs. simpl. by rewrite bool_decide_eq_false_2.
Qed.

(** C2.  On [main.js]: a load with ["dark"] stored applies ["dark"], a load
    with nothing stored applies ["light"]; at any point of a session a click
    on the theme toggle puts the new theme on the document and writes it to
    the storage under the key [theme]; and whatever page is loaded next
    starts with the theme the document had when the session ended. *)
Theorem theme_round_trip (p p' : Page) (st : gmap string string) (ts : list Target) :
  (st !! "theme" = Some "dark" → data_theme (MainJs.load p st) = Some "dark") ∧
  (st !! "theme" = None → data_theme (MainJs.load p st) = Some "light") ∧
  (is_Some (themeToggle p) →
   theme_flipped (MainJs.clicks ts (MainJs.load p st))
     (MainJs.dispatch OnThemeToggle (MainJs.clicks ts (MainJs.load p st)))) ∧
  data_theme (MainJs.reload p' (MainJs.clicks ts (MainJs.load p st)))
  = data_theme (MainJs.clicks ts (MainJs.load p st)).
Proof.
  destruct (mainjs_load_theme p st) as (Hd & _).
  split_and!.
  - intros H. by rewrite Hd, savedTheme_dark.
  - intros H. rewrite Hd, savedTheme_default; auto.
  - apply mainjs_theme_click.
  - destruct (mainjs_session p st ts) as [_ Hs].
    pose proof (step_applied _ _ Hs (mainjs_load_applied p st)) as Ha.
    unfold MainJs.reload, reload. fold (MainJs.load p').
    destruct (mainjs_load_theme p' (localStorage (MainJs.clicks ts (MainJs.load p st))))
      as (-> & _).
    by rewrite Ha.
Qed.

Lemma theme_round_trip_witness :
  data_theme (MainJs.load sample_page {["theme" := "dark"]}) = Some "dark" ∧
  data_theme (MainJs.load sample_page ∅) = Some "light" ∧
  theme_flipped (MainJs.clicks [OnToggleButton] (MainJs.load sample_page ∅))
    (MainJs.dispatch OnThemeToggle
       (MainJs.clicks [OnToggleButton] (MainJs.load sample_page ∅))) ∧
  data_theme (MainJs.reload bare_page
                (MainJs.clicks [OnThemeToggle] (MainJs.load sample_page ∅)))
  = data_theme (MainJs.clicks [OnThemeToggle] (MainJs.load sample_page ∅)).
Proof.
  assert (({["theme" := "dark"]} : gmap string string) !! "theme" = Some "dark")
    as Hdark by (vm_compute; reflexivity).
  assert ((∅ : gmap string string) !! "theme" = None) as Hnone by reflexivity.
  assert (is_Some (themeToggle sample_page)) as Ht by (eexists; reflexivity).
  pose proof (theme_round_trip sample_page bare_page {["theme" := "dark"]} [])
    as (H1 & _).
  pose proof (theme_round_trip sample_page bare_page ∅ []) as (_ & H2 & _).
  pose proof (theme_round_trip sample_page bare_page ∅ [OnToggleButton])
    as (_ & _ & H3 & _).
  pose proof (theme_round_trip sample_page bare_page ∅ [OnThemeToggle])
    as (_ & _ & _ & H4).
  exact (conj (H1 Hdark) (conj (H2 Hnone) (conj (H3 Ht) H4))).
Defined.

Lemma mainjs_clicks_snoc ts t w :
  MainJs.clicks (ts ++ [t]) w = MainJs.dispatch t (MainJs.clicks ts w).
Proof. unfold MainJs.clicks, clicks. by rewrite foldl_app. Qed.

(** C3.  On [main.js], at any point of a session where the theme is one of
    the two states, two clicks on the theme toggle bring back the attribute
    of the document and the stored preference as a load reads it; the
    storage itself is the same again whenever it held the current theme. *)
Theorem theme_toggle_twice (p : Page) (st : gmap string string) (ts : list Target) :
  is_Some (themeToggle p) →
  data_theme (MainJs.clicks ts (MainJs.load p st)) = Some "light" ∨
  data_theme (MainJs.clicks ts (MainJs.load p st)) = Some "dark" →
  data_theme (MainJs.clicks (ts ++ [OnThemeToggle; OnThemeToggle]) (MainJs.load p st))
  = data_theme (MainJs.clicks ts (MainJs.load p st)) ∧
  savedTheme (localStorage
                (MainJs.clicks (ts ++ [OnThemeToggle; OnThemeToggle]) (MainJs.load p st)))
  = savedTheme (localStorage (MainJs.clicks ts (MainJs.load p st))) ∧
  (localStorage (MainJs.clicks ts (MainJs.load p st)) !! "theme"
   = data_theme (MainJs.clicks ts (MainJs.load p st)) →
   localStorage (MainJs.clicks (ts ++ [OnThemeToggle; OnThemeToggle]) (MainJs.load p st))
   = localStorage (MainJs.clicks ts (MainJs.load p st))).
Proof.
  intros Ht Hd.
  replace (ts ++ [OnThemeToggle; OnThemeToggle])
    with ((ts ++ [OnThemeToggle]) ++ [OnThemeToggle]) by (by rewrite <- app_assoc).
  rewrite (mainjs_clicks_snoc (ts ++ [OnThemeToggle])).
  pose proof (mainjs_theme_click p st (ts ++ [OnThemeToggle]) Ht) as (Hd2 & Hs2 & _).
  rewrite mainjs_clicks_snoc in *.
  pose proof (mainjs_theme_click p st ts Ht) as (Hd1 & Hs1 & _).
  destruct (mainjs_session p st ts) as [_ Hs].
  pose proof (step_applied _ _ Hs (mainjs_load_applied p st)) as Ha.
  set (w := MainJs.clicks ts (MainJs.load p st)) in *.
  set (w1 := MainJs.dispatch OnThemeToggle w) in *.
  set (w2 := MainJs.dispatch OnThemeToggle w1) in *.
  assert (Some (newTheme (data_theme w1)) = data_theme w) as Hback.
  { rewrite Hd1. destruct Hd as [-> | ->]; reflexivity. }
  rewrite Hd2, Hs2, Hs1, insert_insert_eq.
  split_and!.
  - done.
  - rewrite savedTheme_insert by apply newTheme_nonempty.
    unfold theme_applied in Ha. congruence.
  - intros Hst. apply insert_id. congruence.
Qed.

Lemma theme_toggle_twice_witness :
  is_Some (themeToggle sample_page) ∧
  data_theme (MainJs.clicks ([OnThemeToggle] ++ [OnThemeToggle; OnThemeToggle])
                (MainJs.load sample_page ∅))
  = data_theme (MainJs.clicks [OnThemeToggle] (MainJs.load sample_page ∅)) ∧
  localStorage (MainJs.clicks ([OnThemeToggle] ++ [OnThemeToggle; OnThemeToggle])
                  (MainJs.load sample_page ∅))
  = localStorage (MainJs.clicks [OnThemeToggle] (MainJs.load sample_page ∅)).
Proof.
  assert (is_Some (themeToggle sample_page)) as Ht by (eexists; reflexivity).
  assert (data_theme (MainJs.clicks [OnThemeToggle] (MainJs.load sample_page ∅))
          = Some "dark") as Hd by (vm_compute; reflexivity).
  assert (localStorage (MainJs.clicks [OnThemeToggle] (MainJs.load sample_page ∅))
            !! "theme"
          = data_theme (MainJs.clicks [OnThemeToggle] (MainJs.load sample_page ∅)))
    as Hs by (vm_compute; reflexivity).
  pose proof (theme_toggle_twice sample_page ∅ [OnThemeToggle] Ht (or_intror Hd))
    as (H1 & _ & H3).
  exact (conj Ht (conj H1 (H3 Hs))).
Defined.

(** C10.  In both page scripts the load applies a stored, non-empty string
    as it is, whatever it says, and applies ["light"] when nothing or the
    empty string is stored.  On [main.js] a click on the theme toggle, at
    any point of a session, moves every theme but ["dark"] to ["dark"], and
    leaves the document with ["light"] or ["dark"]. *)
Theorem stored_theme_verbatim (p : Page) (st : gmap string string) :
  (∀ s, st !! "theme" = Some s → s ≠ "" →
     data_theme (MainJs.load p st) = Some s ∧
     data_theme (IconJs.load p st) = Some s) ∧
  (st !! "theme" = None ∨ st !! "theme" = Some "" →
     data_theme (MainJs.load p st) = Some "light" ∧
     data_theme (IconJs.load p st) = Some "light") ∧
  (∀ ts, is_Some (themeToggle p) →
     (data_theme (MainJs.clicks ts (MainJs.load p st)) ≠ Some "dark" →
      data_theme (MainJs.clicks (ts ++ [OnThemeToggle]) (MainJs.load p st))
      = Some "dark") ∧
     (data_theme (MainJs.clicks (ts ++ [OnThemeToggle]) (MainJs.load p st))
      = Some "light" ∨
      data_theme (MainJs.clicks (ts ++ [OnThemeToggle]) (MainJs.load p st))
      = Some "dark")).
Proof.
  assert (data_theme (MainJs.load p st) = Some (savedTheme st)) as Hm
    by apply mainjs_load_theme.
  assert (data_theme (IconJs.load p st) = Some (savedTheme st)) as Hi.
  { destruct (iconjs_load_frame p st) as (_ & _ & _ & _ & Hb & _).
    unfold data_theme. rewrite Hb. apply getAttribute_setAttribute. }
  rewrite Hm, Hi. split_and!.
  - intros s Hs Hne. by rewrite (savedTheme_verbatim st s).
  - intros Hs. by rewrite savedTheme_default.
  - intros ts Ht. rewrite mainjs_clicks_snoc.
    destruct (mainjs_theme_click p st ts Ht) as (-> & _).
    split.
    + intros Hd. unfold newTheme. by rewrite bool_decide_eq_false_2.
    + destruct (newTheme_cases (data_theme (MainJs.clicks ts (MainJs.load p st))))
        as [-> | ->]; auto.
Qed.

Lemma stored_theme_verbatim_witness :
  (data_theme (MainJs.load sample_page {["theme" := "sepia"]}) = Some "sepia" ∧
   data_theme (IconJs.load sample_page {["theme" := "sepia"]}) = Some "sepia") ∧
  (data_theme (MainJs.load sample_page {["theme" := ""]}) = Some "light" ∧
   data_theme (IconJs.load sample_page {["theme" := ""]}) = Some "light") ∧
  data_theme (MainJs.clicks ([] ++ [OnThemeToggle])
                (MainJs.load sample_page {["theme" := "sepia"]}))
  = Some "dark".
Proof.
  assert (({["theme" := "sepia"]} : gmap string string) !! "theme" = Some "sepia")
    as Hsepia by (vm_compute; reflexivity).
  assert ("sepia" ≠ "") as Hne by discriminate.
  assert (({["theme" := ""]} : gmap string string) !! "theme" = Some "")
    as Hempty by (vm_compute; reflexivity).
  assert (is_Some (themeToggle sample_page)) as Ht by (eexists; reflexivity).
  assert (data_theme (MainJs.clicks [] (MainJs.load sample_page {["theme" := "sepia"]}))
          ≠ Some "dark") as Hd by (vm_compute; discriminate).
  pose proof (stored_theme_verbatim sample_page {["theme" := "sepia"]})
    as (H1 & _ & H3).
  pose proof (stored_theme_verbatim sample_page {["theme" := ""]}) as (_ & H2 & _).
  destruct (H3 [] Ht) as [H3' _].
  exact (conj (H1 "sepia" Hsepia Hne) (conj (H2 (or_intror Hempty)) (H3' Hd))).
Defined.

(** ** The claims about missing elements *)

Lemma nav_listeners_none p : ¬ has_menu p → nav_listeners p = [].
Proof.
  unfold has_menu, nav_listeners. intros Hm.
  destruct (toggleButton p), (mainNav p); try done. destruct Hm; eauto.
Qed.

Lemma nav_handlers_theme p : nav_handlers (theme_listeners p) = [].
Proof. unfold theme_listeners. by destruct (themeToggle p). Qed.

(** C7.  On [main.js], when the toggle control or the navigation container
    is missing: no listener of the menu is attached (the only listeners are
    those of the theme), no exception escapes, the world after the load is
    the one the theme part alone produces, and from then on a click on the
    toggle control or on a link changes nothing. *)
Theorem menu_absent_noop (p : Page) (st : gmap string string) :
  ¬ has_menu p →
  nav_handlers (listeners (MainJs.load p st)) = [] ∧
  listeners (MainJs.load p st) = theme_listeners p ∧
  uncaught (MainJs.load p st) = [] ∧
  MainJs.load p st = run (theme_toggle MainJs.updateEmoji) (mkWorld p st [] [] []) ∧
  data_theme (MainJs.load p st) = Some (savedTheme st) ∧
  (∀ ts t, t ≠ OnThemeToggle →
     MainJs.dispatch t (MainJs.clicks ts (MainJs.load p st))
     = MainJs.clicks ts (MainJs.load p st)).
Proof.
  intros Hm.
  assert (listeners (MainJs.load p st) = theme_listeners p) as Hl.
  { rewrite mainjs_load_eq. simpl. by rewrite nav_listeners_none. }
  split_and!.
  - rewrite Hl. apply nav_handlers_theme.
  - done.
  - apply mainjs_load_theme.
  - unfold MainJs.load, load, DOMContentLoaded, run, bind.
    rewrite menu_toggle_eq. simpl. rewrite nav_listeners_none by done.
    by destruct p.
  - apply mainjs_load_theme.
  - intros ts t Ht. destruct (mainjs_session p st ts) as [Hw Hs].
    assert (¬ has_menu (page (MainJs.clicks ts (MainJs.load p st)))) as Hm'.
    { rewrite <- (step_menu _ _ Hs). rewrite mainjs_load_eq. by destruct p. }
    unfold MainJs.dispatch. destruct t as [|i|]; [| |done].
    + by apply (dispatch_toggle_none _ true).
    + apply (dispatch_link_none _ true); auto.
Qed.

Lemma menu_absent_noop_witness :
  ¬ has_menu bare_page ∧
  nav_handlers (listeners (MainJs.load bare_page ∅)) = [] ∧
  uncaught (MainJs.load bare_page ∅) = [] ∧
  data_theme (MainJs.load bare_page ∅) = Some (savedTheme ∅) ∧
  MainJs.dispatch OnToggleButton (MainJs.clicks [OnNavLink 0] (MainJs.load bare_page ∅))
  = MainJs.clicks [OnNavLink 0] (MainJs.load bare_page ∅).
Proof.
  assert (¬ has_menu bare_page) as Hm by (intros [[? H] _]; discriminate H).
  assert (OnToggleButton ≠ OnThemeToggle) as Ht by discriminate.
  pose proof (menu_absent_noop bare_page ∅ Hm) as (H1 & _ & H3 & _ & H5 & H6).
  exact (conj Hm (conj H1 (conj H3 (conj H5 (H6 [OnNavLink 0] OnToggleButton Ht))))).
Defined.

(** C6, at a page without the theme toggle and without the icons.  Both
    scripts put the default theme on the document; [main.js] ends its load
    without an exception, the icon variant ends it with the [TypeError] of
    [sunIcon.style] on [null]. *)
Theorem icon_variant_load_fault :
  themeToggle bare_page = None ∧
  data_theme (MainJs.load bare_page ∅) = Some "light" ∧
  uncaught (MainJs.load bare_page ∅) = [] ∧
  data_theme (IconJs.load bare_page ∅) = Some "light" ∧
  uncaught (IconJs.load bare_page ∅) = [TypeError "style"].
Proof. split_and!; vm_compute; reflexivity. Qed.

(** Without the theme toggle, [main.js] applies the theme, attaches no theme
    listener and raises nothing; the icon variant does the same as long as
    both icons are there. *)
Lemma theme_toggle_absent p st :
  themeToggle p = None →
  (data_theme (MainJs.load p st) = Some (savedTheme st) ∧
   listeners (MainJs.load p st) = nav_listeners p ∧
   uncaught (MainJs.load p st) = []) ∧
  (has_icons p = true →
   data_theme (IconJs.load p st) = Some (savedTheme st) ∧
   listeners (IconJs.load p st) = nav_listeners p ∧
   uncaught (IconJs.load p st) = []) ∧
  (has_icons p = false →
   data_theme (IconJs.load p st) = Some (savedTheme st) ∧
   listeners (IconJs.load p st) = nav_listeners p ∧
   uncaught (IconJs.load p st) = [TypeError "style"]).
Proof.
  intros Ht.
  assert (data_theme (IconJs.load p st) = Some (savedTheme st)) as Hd.
  { destruct (iconjs_load_frame p st) as (_ & _ & _ & _ & Hb & _).
    unfold data_theme. rewrite Hb. apply getAttribute_setAttribute. }
  split_and!; try done.
  - apply mainjs_load_theme.
  - rewrite mainjs_load_eq. unfold theme_listeners. simpl.
    by rewrite Ht, app_nil_r.
  - apply mainjs_load_theme.
  - intros Hi. unfold has_icons in Hi.
    destruct (sunIcon p) as [s|] eqn:Hs; [|done].
    destruct (moonIcon p) as [m|] eqn:Hm; [|done].
    split_and!; [done| |]; rewrite (iconjs_load_eq p st s m) by done; [|done].
    unfold theme_listeners. simpl. by rewrite Ht, app_nil_r.
  - intros Hi. destruct (iconjs_load_fault p st Hi) as (Hu & Hl & _). done.
Qed.

(** ** The two variants side by side *)

Lemma same_theme_load p st :
  (is_Some (themeToggle p) → has_icons p = true) →
  same_theme (has_icons p) (MainJs.load p st) (IconJs.load p st).
Proof.
  intros Hp.
  destruct (mainjs_load_theme p st) as (Hd & Hs & Hw & _ & Ht).
  destruct (iconjs_load_frame p st) as (_ & _ & _ & Ht' & Hb & Hi & Hs' & Hw').
  unfold same_theme, theme_view. rewrite Hd, Hs, Hw, Hs', Hw', Ht', Hi.
  split_and!; try done.
  - unfold data_theme. by rewrite Hb, getAttribute_setAttribute.
  - apply mainjs_load_wired.
  - apply iconjs_load_wired.
Qed.

Lemma theme_flipped_view w1 w1' w2 w2' :
  theme_view w1 = theme_view w2 →
  theme_flipped w1 w1' → theme_flipped w2 w2' →
  theme_view w1' = theme_view w2'.
Proof.
  unfold theme_view, theme_flipped.
  intros [= Hd Hs Hw] (-> & -> & ->) (-> & -> & ->). by rewrite Hd, Hs, Hw.
Qed.

Lemma same_theme_step th t we wi :
  same_theme th we wi →
  same_theme th (MainJs.dispatch t we) (IconJs.dispatch t wi).
Proof.
  intros (Hv & Hwe & Hwi & Hi & Hp & Hth).
  destruct (decide (t = OnThemeToggle)) as [->|Ht].
  - destruct (mainjs_theme_step we Hwe) as (Hwe' & _ & Hpe & _ & Hfe & Hne).
    destruct (iconjs_theme_step th wi Hwi Hi) as (Hwi' & _ & Hpi & Hi' & Hfi & Hni).
    unfold same_theme. split_and!; try done.
    + destruct (themeToggle (page wi)) as [e|] eqn:He.
      * assert (th = true) as -> by eauto.
        apply (theme_flipped_view we _ wi); [done|apply Hfe|apply Hfi]; try done.
        apply Hp; eauto.
      * rewrite Hni by auto. rewrite Hne; [done|].
        destruct (themeToggle (page we)) eqn:Hee; [|done].
        destruct Hp as [Hp _]. destruct Hp as [? Hp]; [eauto|]. done.
    + intros ->. rewrite Hi'. auto.
    + by rewrite <- Hpe, <- Hpi.
    + rewrite <- Hpi. done.
  - destruct (nav_step MainJs.updateEmoji true t we Ht Hwe) as (Hwe' & Hme & _).
    destruct (nav_step IconJs.updateIcons th t wi Ht Hwi) as (Hwi' & Hmi & _).
    pose proof (menu_only_view _ _ Hme) as Hve.
    pose proof (menu_only_view _ _ Hmi) as Hvi.
    destruct Hme as (_ & Hte & _).
    destruct Hmi as (_ & Hti & _ & Hsi & Hoi & _).
    unfold same_theme, MainJs.dispatch, IconJs.dispatch.
    rewrite Hve, Hvi, Hte, Hti. unfold has_icons. rewrite Hsi, Hoi.
    split_and!; done.
Qed.

Lemma same_theme_history th ts we wi :
  same_theme th we wi →
  theme_view <$> history MainJs.dispatch ts we
  = theme_view <$> history IconJs.dispatch ts wi.
Proof.
  revert we wi. induction ts as [|t ts IH]; intros we wi Hs.
  - simpl. f_equal. apply Hs.
  - simpl. f_equal; [apply Hs|]. apply IH. by apply same_theme_step.
Qed.

(** C9.  On every page that has both icons whenever it has the theme toggle,
    for every content of the storage and every sequence of clicks, the two
    variants go through the same values of the theme attribute, the same
    storage contents and the same writes to the storage, at the load and
    after each click. *)
Theorem theme_variants_agree (p : Page) (st : gmap string string) (ts : list Target) :
  (is_Some (themeToggle p) → has_icons p = true) →
  theme_view <$> history MainJs.dispatch ts (MainJs.load p st)
  = theme_view <$> history IconJs.dispatch ts (IconJs.load p st).
Proof.
  intros Hp. apply (same_theme_history (has_icons p)). by apply same_theme_load.
Qed.

Lemma theme_variants_agree_witness :
  (is_Some (themeToggle sample_page) → has_icons sample_page = true) ∧
  theme_view <$> history MainJs.dispatch [OnThemeToggle; OnToggleButton; OnThemeToggle]
                   (MainJs.load sample_page {["theme" := "dark"]})
  = theme_view <$> history IconJs.dispatch [OnThemeToggle; OnToggleButton; OnThemeToggle]
                     (IconJs.load sample_page {["theme" := "dark"]}).
Proof.
  assert (is_Some (themeToggle sample_page) → has_icons sample_page = true) as Hp
    by (intros _; reflexivity).
  exact (conj Hp (theme_variants_agree sample_page {["theme" := "dark"]}
                    [OnThemeToggle; OnToggleButton; OnThemeToggle] Hp)).
Defined.

(** ** The claims about the service worker *)

(** C8.  The [install] listener appends one message to the console and
    leaves the cache storage and the network traffic as they were. *)
Theorem install_only_logs (s : ServiceWorker.Scope) :
  ServiceWorker.console (ServiceWorker.on_install s)
  = ServiceWorker.console s ++ ["Service Worker: Installed"] ∧
  ServiceWorker.caches (ServiceWorker.on_install s) = ServiceWorker.caches s ∧
  ServiceWorker.sent (ServiceWorker.on_install s) = ServiceWorker.sent s.
Proof. by destruct s. Qed.

(** C5.  For every network and every intercepted request, the page receives
    what the listener got from the network for that very request: the
    listener is the pass-through of the spec.  It puts exactly this request
    on the network, does not touch the caches or the console, and hands a
    rejection on as it is. *)
Theorem fetch_pass_through
    (network : list ServiceWorker.Request → ServiceWorker.Request → ServiceWorker.Settled)
    (req : ServiceWorker.Request) (s : ServiceWorker.Scope) :
  ServiceWorker.intercepted network req s
  = ServiceWorker.pass_through_spec network req s ∧
  (ServiceWorker.intercepted network req s).1
  = Some (network (ServiceWorker.sent s) req) ∧
  ServiceWorker.sent (ServiceWorker.intercepted network req s).2
  = ServiceWorker.sent s ++ [req] ∧
  ServiceWorker.caches (ServiceWorker.intercepted network req s).2
  = ServiceWorker.caches s ∧
  ServiceWorker.console (ServiceWorker.intercepted network req s).2
  = ServiceWorker.console s ∧
  (∀ reason, network (ServiceWorker.sent s) req = ServiceWorker.Rejected reason →
     (ServiceWorker.intercepted network req s).1
     = Some (ServiceWorker.Rejected reason)).
Proof.
  unfold ServiceWorker.intercepted, ServiceWorker.on_fetch, ServiceWorker.fetch,
    ServiceWorker.pass_through_spec, ServiceWorker.respondWith; simpl.
  split_and!; try done. by intros reason ->.
Qed.

Lemma fetch_pass_through_witness :
  (ServiceWorker.intercepted ServiceWorker.offline ServiceWorker.sample_request
     ServiceWorker.fresh_scope).1
  = Some (ServiceWorker.Rejected "Failed to fetch").
Proof.
  assert (ServiceWorker.offline (ServiceWorker.sent ServiceWorker.fresh_scope)
            ServiceWorker.sample_request
          = ServiceWorker.Rejected "Failed to fetch") as Hdown by reflexivity.
  pose proof (fetch_pass_through ServiceWorker.offline ServiceWorker.sample_request
                ServiceWorker.fresh_scope) as (_ & _ & _ & _ & _ & H).
  exact (H "Failed to fetch" Hdown).
Defined.

(** ** The scenarios of the spec, run on the sample page *)

(** No stored theme: the document is light and the indicator shows the
    moon; one click makes it dark, stores ["dark"] and shows the sun; the
    next load starts dark. *)
Example scenario_theme :
  let w0 := MainJs.load sample_page ∅ in
  let w1 := MainJs.dispatch OnThemeToggle w0 in
  let w2 := MainJs.reload sample_page w1 in
  (data_theme w0, textContent <$> themeToggle (page w0))
  = (Some "light", Some moon_emoji) ∧
  (data_theme w1, localStorage w1 !! "theme", textContent <$> themeToggle (page w1))
  = (Some "dark", Some "dark", Some sun_emoji) ∧
  data_theme w2 = Some "dark".
Proof. split_and!; vm_compute; reflexivity. Qed.

(** Menu closed: a click on the toggle opens it with the attribute at
    ["true"]; a click on a link closes it with the attribute at
    ["false"]. *)
Example scenario_menu :
  let w0 := MainJs.load sample_page ∅ in
  let w1 := MainJs.dispatch OnToggleButton w0 in
  let w2 := MainJs.dispatch (OnNavLink 0) w1 in
  (nav_open w0, nav_open w1, aria_expanded w1, nav_open w2, aria_expanded w2)
  = (false, true, Some "true", false, Some "false").
Proof. vm_compute. reflexivity. Qed.

(** The icon variant on a page with the theme toggle and no icons: the
    theme is applied, the listener of the theme toggle is missing, and a
    click on it does nothing, where [main.js] goes dark. *)
Example scenario_iconless :
  let wi := IconJs.load iconless_page ∅ in
  let we := MainJs.load iconless_page ∅ in
  uncaught wi = [TypeError "style"] ∧
  listening OnThemeToggle (listeners wi) = [] ∧
  data_theme (IconJs.dispatch OnThemeToggle wi) = Some "light" ∧
  data_theme (MainJs.dispatch OnThemeToggle we) = Some "dark".
Proof. split_and!; vm_compute; reflexivity. Qed.


(** * Further properties of the scripts *)

(** ** Exceptions *)


Lemma iconjs_load_inv p st :
  wired (has_icons p) (IconJs.load p st) ∧
  (has_icons p = true → has_icons (page (IconJs.load p st)) = true).
Proof.
  split; [apply iconjs_load_wired|].
  destruct (iconjs_load_frame p st) as (_ & _ & _ & _ & _ & -> & _). done.
Qed.



(** X3.  In the icon variant, on a page that lacks an icon, the theme toggle
    stays without listener: at any point of a session a click on it changes
    nothing, neither the document nor the storage. *)
Theorem iconjs_toggle_dead (p : Page) (st : gmap string string) (ts : list Target) :
  has_icons p = false →
  IconJs.dispatch OnThemeToggle (IconJs.clicks ts (IconJs.load p st))
  = IconJs.clicks ts (IconJs.load p st).
Proof.
  intros Hi. destruct (iconjs_session p st ts) as [Hw _]. rewrite Hi in Hw.
  unfold IconJs.dispatch. apply (dispatch_theme_none _ false); auto.
Qed.

Lemma iconjs_toggle_dead_witness :
  has_icons iconless_page = false ∧
  IconJs.dispatch OnThemeToggle
    (IconJs.clicks [OnToggleButton] (IconJs.load iconless_page ∅))
  = IconJs.clicks [OnToggleButton] (IconJs.load iconless_page ∅).
Proof.
  assert (has_icons iconless_page = false) as Hi by reflexivity.
  exact (conj Hi (iconjs_toggle_dead iconless_page ∅ [OnToggleButton] Hi)).
Defined.

(** X4.  The menu of the icon variant is wired before the icons are touched: on
    every page with the menu, with or without icons, a session with a click
    on the toggle control ends with class and attribute in lockstep. *)
Theorem iconjs_menu_lockstep (p : Page) (st : gmap string string) (ts : list Target) :
  has_menu p → mirrored p → OnToggleButton ∈ ts →
  lockstep (IconJs.clicks ts (IconJs.load p st)).
Proof.
  intros Hm Hp Hts. destruct (iconjs_load_menu p st Hm) as [Hm' Hin].
  apply (clicks_lockstep IconJs.updateIcons (has_icons p)
           (λ w, wired (has_icons p) w ∧
                 (has_icons p = true → has_icons (page w) = true))); auto.
  - by intros w [? _].
  - apply iconjs_step.
  - apply iconjs_load_inv.
Qed.

Lemma iconjs_menu_lockstep_witness :
  has_menu iconless_page ∧ mirrored iconless_page ∧
  lockstep (IconJs.clicks [OnThemeToggle; OnToggleButton; OnNavLink 0; OnToggleButton]
              (IconJs.load iconless_page ∅)).
Proof.
  assert (has_menu iconless_page) as Hm by (split; eexists; reflexivity).
  assert (mirrored iconless_page) as Hp.
  { intros btn nav [= <-] [= <-]. vm_compute. split; intros H; discriminate H. }
  assert (OnToggleButton
          ∈ [OnThemeToggle; OnToggleButton; OnNavLink 0; OnToggleButton]) as Hts
    by (apply list_elem_of_further, list_elem_of_here).
  exact (conj Hm (conj Hp (iconjs_menu_lockstep iconless_page ∅ _ Hm Hp Hts))).
Defined.

(** ** What a click can be *)


Lemma contains_toggle_ne c x e : c ≠ x → contains c (toggle x e) = contains c e.
Proof.
  intros Hc. unfold toggle, add, remove, contains.
  destruct (bool_decide (x ∈ classList e)); simpl; apply bool_decide_ext.
  - rewrite list_elem_of_filter. tauto.
  - rewrite elem_of_app, list_elem_of_singleton. tauto.
Qed.









(** ** What the scripts never touch *)


(** ** The indicator *)

Lemma menu_dispatch_theme_frame u th t w :
  t ≠ OnThemeToggle → wired th w →
  themeToggle (page (dispatch u t w)) = themeToggle (page w) ∧
  sunIcon (page (dispatch u t w)) = sunIcon (page w) ∧
  moonIcon (page (dispatch u t w)) = moonIcon (page w) ∧
  data_theme (dispatch u t w) = data_theme w ∧
  localStorage (dispatch u t w) = localStorage w ∧
  writes (dispatch u t w) = writes w.
Proof.
  intros Ht Hw. destruct (nav_step u th t w Ht Hw) as (_ & Hm & _).
  destruct Hm as (_ & -> & Hb & -> & -> & -> & -> & _).
  unfold data_theme. by rewrite Hb.
Qed.

Lemma mainjs_dispatch_shown t w :
  wired true w → emoji_shown w → emoji_shown (MainJs.dispatch t w).
Proof.
  intros Hw Hsh. destruct (decide (t = OnThemeToggle)) as [->|Ht].
  - destruct (themeToggle (page w)) as [e|] eqn:He.
    + rewrite (mainjs_dispatch_theme w e) by done.
      intros e' [= <-]. eexists. unfold data_theme; simpl.
      by rewrite getAttribute_setAttribute.
    + unfold MainJs.dispatch. by rewrite (dispatch_theme_none _ true) by auto.
  - destruct (menu_dispatch_theme_frame MainJs.updateEmoji true t w Ht Hw)
      as (Ht' & _ & _ & Hd & _).
    unfold emoji_shown, MainJs.dispatch. rewrite Ht', Hd. done.
Qed.

(** X6.  On [main.js], after the load and after every click, the theme toggle
    shows the emoji of the theme that is on the document: the sun for
    ["dark"], the moon for any other theme. *)
Theorem emoji_follows_theme (p : Page) (st : gmap string string) (ts : list Target) :
  emoji_shown (MainJs.clicks ts (MainJs.load p st)).
Proof.
  apply (clicks_session MainJs.updateEmoji (λ w, wired true w ∧ emoji_shown w)).
  - intros t w [Hw Hsh]. destruct (mainjs_step t w Hw) as [Hw' Hs].
    split_and!; try done. by apply mainjs_dispatch_shown.
  - split; [apply mainjs_load_wired|].
    rewrite mainjs_load_eq. intros e He. simpl in He.
    destruct (themeToggle p) as [e0|]; [|done]. injection He as <-.
    eexists. unfold data_theme; simpl. by rewrite getAttribute_setAttribute.
Qed.

Lemma iconjs_dispatch_shown th t w :
  wired th w → (th = true → has_icons (page w) = true) →
  icons_shown w → icons_shown (IconJs.dispatch t w).
Proof.
  intros Hw Hi Hsh. destruct (decide (t = OnThemeToggle)) as [->|Ht].
  - destruct th;
      [|unfold IconJs.dispatch; by rewrite (dispatch_theme_none _ false) by auto].
    destruct (themeToggle (page w)) as [e|] eqn:He;
      [|unfold IconJs.dispatch; by rewrite (dispatch_theme_none _ true) by auto].
    specialize (Hi eq_refl). unfold has_icons in Hi.
    destruct (sunIcon (page w)) as [s|] eqn:Hs; [|done].
    destruct (moonIcon (page w)) as [m|] eqn:Hm; [|done].
    rewrite (iconjs_dispatch_theme w e s m) by done.
    intros s' m' [= <-] [= <-]. eexists. unfold data_theme; simpl.
    rewrite getAttribute_setAttribute, !lookup_insert_eq. done.
  - destruct (menu_dispatch_theme_frame IconJs.updateIcons th t w Ht Hw)
      as (_ & Hs & Hm & Hd & _).
    unfold icons_shown, IconJs.dispatch. rewrite Hs, Hm, Hd. done.
Qed.

(** X7.  In the icon variant, on a page with both icons, after the load and
    after every click the icons show the theme that is on the document: for
    ["dark"] the sun is hidden and the moon inline, for any other theme the
    sun is inline and the moon hidden. *)
Theorem icons_follow_theme (p : Page) (st : gmap string string) (ts : list Target) :
  icons_shown (IconJs.clicks ts (IconJs.load p st)).
Proof.
  apply (clicks_session IconJs.updateIcons
           (λ w, (wired (has_icons p) w ∧
                  (has_icons p = true → has_icons (page w) = true)) ∧
                 icons_shown w)).
  - intros t w [[Hw Hi] Hsh].
    destruct (iconjs_step (has_icons p) t w (conj Hw Hi)) as [Hw' Hs].
    split_and!; try done; try apply Hw'.
    by apply (iconjs_dispatch_shown (has_icons p)).
  - split; [apply iconjs_load_inv|].
    destruct (sunIcon p) as [s|] eqn:Hs, (moonIcon p) as [m|] eqn:Hm.
    + rewrite (iconjs_load_eq p st s m) by done.
      intros s' m' [= <-] [= <-]. eexists. unfold data_theme; simpl.
      rewrite getAttribute_setAttribute, !lookup_insert_eq. done.
    + assert (has_icons p = false) as Hi by (unfold has_icons; by rewrite Hs, Hm).
      destruct (iconjs_load_fault p st Hi) as (_ & _ & _ & _ & _ & _ & _ & Hi' & _).
      intros s' m' Hs' Hm'. unfold has_icons in Hi'. by rewrite Hs', Hm' in Hi'.
    + assert (has_icons p = false) as Hi by (unfold has_icons; by rewrite Hs).
      destruct (iconjs_load_fault p st Hi) as (_ & _ & _ & _ & _ & _ & _ & Hi' & _).
      intros s' m' Hs' Hm'. unfold has_icons in Hi'. by rewrite Hs', Hm' in Hi'.
    + assert (has_icons p = false) as Hi by (unfold has_icons; by rewrite Hs).
      destruct (iconjs_load_fault p st Hi) as (_ & _ & _ & _ & _ & _ & _ & Hi' & _).
      intros s' m' Hs' Hm'. unfold has_icons in Hi'. by rewrite Hs', Hm' in Hi'.
Qed.

(** X8.  The icon variant on a page with the sun icon and without the moon icon:
    the display of the sun icon is written before the [TypeError], so the
    load leaves the sun hidden for ["dark"] and inline otherwise, with no
    moon to go with it.  On a page without the sun icon the moon icon is not
    touched. *)
Theorem icons_half_shown (p : Page) (st : gmap string string) :
  (∀ s, sunIcon p = Some s → moonIcon p = None →
     sunIcon (page (IconJs.load p st))
     = Some (set_display
               (if bool_decide (savedTheme st = "dark") then "none" else "inline") s)) ∧
  (sunIcon p = None → moonIcon (page (IconJs.load p st)) = moonIcon p).
Proof.
  destruct p as [tb mn k tt bd su mo]. simpl.
  split.
  - intros s -> ->.
    unfold IconJs.load, load, run, DOMContentLoaded, bind.
    rewrite menu_toggle_eq.
    unfold theme_toggle, bind, getItem, update, IconJs.updateIcons, savedTheme;
      simpl.
    case_bool_decide; reflexivity.
  - intros ->.
    unfold IconJs.load, load, run, DOMContentLoaded, bind.
    rewrite menu_toggle_eq.
    unfold theme_toggle, bind, getItem, update, IconJs.updateIcons; simpl.
    case_bool_decide; reflexivity.
Qed.

Lemma icons_half_shown_witness :
  sunIcon (page (IconJs.load moonless_page {["theme" := "dark"]}))
  = Some (set_display "none" (mkElement ∅ ["sun-icon"] "" ∅)).
Proof.
  assert (sunIcon moonless_page = Some (mkElement ∅ ["sun-icon"] "" ∅)) as Hs
    by reflexivity.
  assert (moonIcon moonless_page = None) as Hm by reflexivity.
  pose proof (icons_half_shown moonless_page {["theme" := "dark"]}) as [H _].
  exact (H _ Hs Hm).
Defined.

(** ** The theme, the storage and the writes after a session *)

Lemma theme_clicks_snoc ts t :
  theme_clicks (ts ++ [t])
  = if decide (t = OnThemeToggle) then S (theme_clicks ts) else theme_clicks ts.
Proof.
  unfold theme_clicks. rewrite filter_app, length_app, filter_cons, filter_nil.
  destruct (decide (t = OnThemeToggle)); simpl; lia.
Qed.

Lemma theme_trace_flipped n t0 st w w' :
  theme_view w = theme_trace n t0 st → theme_flipped w w' →
  theme_view w' = theme_trace (S n) t0 st.
Proof.
  unfold theme_view, theme_trace. intros [= Hd Hs Hw] (-> & -> & ->).
  rewrite Hd, Hs, Hw. f_equal; [f_equal|].
  - destruct n; [done|]. by rewrite insert_insert_eq.
  - by rewrite seq_S, fmap_app.
Qed.

Section ThemeTrace.

Variable u : string → JS unit.
Variable attached : bool.
Variable w0 : World.
Variable t0 : string.

Hypothesis Hload : theme_view w0 = theme_trace 0 t0 (localStorage w0).
Hypothesis Htheme :
  ∀ ts, if attached
        then theme_flipped (clicks u ts w0) (dispatch u OnThemeToggle (clicks u ts w0))
        else dispatch u OnThemeToggle (clicks u ts w0) = clicks u ts w0.
Hypothesis Hmenu :
  ∀ ts t, t ≠ OnThemeToggle →
    theme_view (dispatch u t (clicks u ts w0)) = theme_view (clicks u ts w0).

Lemma clicks_snoc ts t w : clicks u (ts ++ [t]) w = dispatch u t (clicks u ts w).
Proof. unfold clicks. by rewrite foldl_app. Qed.

Lemma clicks_theme_trace ts :
  theme_view (clicks u ts w0)
  = theme_trace (effective_clicks attached ts) t0 (localStorage w0).
Proof.
  induction ts as [|t ts IH] using rev_ind.
  - unfold effective_clicks, theme_clicks. simpl. by destruct attached.
  - rewrite clicks_snoc. unfold effective_clicks in *.
    rewrite theme_clicks_snoc. destruct (decide (t = OnThemeToggle)) as [->|Ht].
    + specialize (Htheme ts). destruct attached.
      * by apply (theme_trace_flipped _ _ _ (clicks u ts w0)).
      * by rewrite Htheme.
    + by rewrite Hmenu.
Qed.

End ThemeTrace.

Lemma theme_view_load w st :
  data_theme w = Some (savedTheme st) → localStorage w = st → writes w = [] →
  theme_view w = theme_trace 0 (savedTheme st) (localStorage w).
Proof. unfold theme_view, theme_trace. by intros -> -> ->. Qed.

Lemma has_toggle_is_Some p : has_toggle p = true ↔ is_Some (themeToggle p).
Proof.
  unfold has_toggle. destruct (themeToggle p); split; eauto; try done;
    by intros [? ?].
Qed.

Lemma mainjs_theme_view p st ts :
  theme_view (MainJs.clicks ts (MainJs.load p st))
  = theme_trace (effective_clicks (has_toggle p) ts) (savedTheme st) st.
Proof.
  destruct (mainjs_load_theme p st) as (Hd & Hs & Hw & _ & Ht).
  enough (theme_view (clicks MainJs.updateEmoji ts (MainJs.load p st))
          = theme_trace (effective_clicks (has_toggle p) ts) (savedTheme st)
              (localStorage (MainJs.load p st))) as H by (by rewrite Hs in H).
  apply (clicks_theme_trace MainJs.updateEmoji (has_toggle p) (MainJs.load p st)).
  - by apply theme_view_load.
  - intros ts'. destruct (has_toggle p) eqn:Hp.
    + apply mainjs_theme_click. by apply has_toggle_is_Some.
    + destruct (mainjs_session p st ts') as [Hw' Hs'].
      apply mainjs_theme_step; [done|].
      destruct (themeToggle (page (MainJs.clicks ts' (MainJs.load p st))))
        as [e|] eqn:He; [|done].
      assert (is_Some (themeToggle p)) as Hq.
      { apply Ht. apply (step_toggle _ _ Hs'). fold MainJs.clicks MainJs.load.
        rewrite He. eauto. }
      apply has_toggle_is_Some in Hq. congruence.
  - intros ts' t Hne. destruct (mainjs_session p st ts') as [Hw' _].
    destruct (menu_dispatch_theme_frame MainJs.updateEmoji true t _ Hne Hw')
      as (_ & _ & _ & Hd' & Hs'' & Hw'').
    unfold theme_view. fold MainJs.clicks MainJs.load. by rewrite Hd', Hs'', Hw''.
Qed.

Lemma iconjs_theme_view p st ts :
  theme_view (IconJs.clicks ts (IconJs.load p st))
  = theme_trace (effective_clicks (has_toggle p && has_icons p) ts)
      (savedTheme st) st.
Proof.
  destruct (iconjs_load_frame p st) as (_ & _ & _ & Ht & Hb & Hi & Hs & Hw).
  enough (theme_view (clicks IconJs.updateIcons ts (IconJs.load p st))
          = theme_trace (effective_clicks (has_toggle p && has_icons p) ts)
              (savedTheme st) (localStorage (IconJs.load p st))) as H
    by (by rewrite Hs in H).
  apply (clicks_theme_trace IconJs.updateIcons (has_toggle p && has_icons p)
           (IconJs.load p st)).
  - apply theme_view_load; try done.
    unfold data_theme. by rewrite Hb, getAttribute_setAttribute.
  - intros ts'.
    destruct (clicks_session IconJs.updateIcons
                (λ w, wired (has_icons p) w ∧
                      (has_icons p = true → has_icons (page w) = true))
                (iconjs_step (has_icons p)) ts' (IconJs.load p st)
                (iconjs_load_inv p st)) as [[Hw' Hi'] Hs'].
    destruct (iconjs_theme_step (has_icons p) _ Hw' Hi')
      as (_ & _ & _ & _ & Hf & Hn).
    assert (is_Some (themeToggle (page (clicks IconJs.updateIcons ts' (IconJs.load p st))))
            ↔ is_Some (themeToggle p)) as Hq
      by (rewrite <- (step_toggle _ _ Hs'); by rewrite Ht).
    destruct (has_toggle p) eqn:Hp; simpl.
    + destruct (has_icons p) eqn:Hic; [|apply Hn; auto].
      apply Hf; [done|]. apply Hq. by apply has_toggle_is_Some.
    + apply Hn. right.
      destruct (themeToggle (page (clicks IconJs.updateIcons ts' (IconJs.load p st))))
        as [e|] eqn:He; [|done].
      assert (is_Some (themeToggle p)) as Hq' by (apply Hq; eauto).
      apply has_toggle_is_Some in Hq'. congruence.
  - intros ts' t Hne. destruct (iconjs_session p st ts') as [Hw' _].
    destruct (menu_dispatch_theme_frame IconJs.updateIcons (has_icons p) t _ Hne Hw')
      as (_ & _ & _ & Hd' & Hs'' & Hw'').
    unfold theme_view. fold IconJs.clicks IconJs.load. by rewrite Hd', Hs'', Hw''.
Qed.

(** X9.  In both page scripts, the theme on the document, the storage and the
    writes to the storage after a session depend only on what the load read
    and on the number of clicks that reached the theme listener: the theme
    has flipped that many times, the storage holds it under [theme] once
    there was such a click and is otherwise as it was, and every click wrote
    its theme, in order.  In [main.js] every click on an existing theme toggle
    counts; in the icon variant only if both icons exist. *)
Theorem session_theme_view (p : Page) (st : gmap string string) (ts : list Target) :
  theme_view (MainJs.clicks ts (MainJs.load p st))
  = theme_trace (effective_clicks (has_toggle p) ts) (savedTheme st) st ∧
  theme_view (IconJs.clicks ts (IconJs.load p st))
  = theme_trace (effective_clicks (has_toggle p && has_icons p) ts)
      (savedTheme st) st.
Proof. split; [apply mainjs_theme_view|apply iconjs_theme_view]. Qed.

Lemma theme_after_cases n t : 0 < n → theme_after n t = "light" ∨ theme_after n t = "dark".
Proof. destruct n; [lia|]. intros _. apply newTheme_cases. Qed.

(** X10.  On [main.js]: no key of the storage but [theme] ever changes; a session
    without a click on an existing theme toggle leaves the storage as it was,
    so a default theme is applied without being stored; and once there was
    such a click, the storage holds under [theme] the theme that is on the
    document, which is ["light"] or ["dark"]. *)
Theorem storage_discipline (p : Page) (st : gmap string string) (ts : list Target) :
  (∀ k, k ≠ "theme" →
     localStorage (MainJs.clicks ts (MainJs.load p st)) !! k = st !! k) ∧
  (effective_clicks (has_toggle p) ts = 0 →
     localStorage (MainJs.clicks ts (MainJs.load p st)) = st) ∧
  (0 < effective_clicks (has_toggle p) ts →
     localStorage (MainJs.clicks ts (MainJs.load p st)) !! "theme"
     = data_theme (MainJs.clicks ts (MainJs.load p st)) ∧
     (data_theme (MainJs.clicks ts (MainJs.load p st)) = Some "light" ∨
      data_theme (MainJs.clicks ts (MainJs.load p st)) = Some "dark")).
Proof.
  pose proof (mainjs_theme_view p st ts) as Hv.
  unfold theme_view, theme_trace in Hv. injection Hv as Hd Hs Hw.
  rewrite Hd, Hs. destruct (effective_clicks (has_toggle p) ts) as [|n] eqn:Hn.
  - split_and!; try done. lia.
  - split_and!; try done.
    + intros k Hk. by rewrite lookup_insert_ne.
    + intros _. rewrite lookup_insert_eq. split; [done|].
      destruct (theme_after_cases (S n) (savedTheme st)) as [-> | ->]; auto; lia.
Qed.

Lemma storage_discipline_witness :
  localStorage (MainJs.clicks [OnThemeToggle; OnToggleButton]
                  (MainJs.load sample_page {["lang" := "sw"]})) !! "lang"
  = ({["lang" := "sw"]} : gmap string string) !! "lang" ∧
  localStorage (MainJs.clicks [OnToggleButton; OnNavLink 1]
                  (MainJs.load sample_page {["lang" := "sw"]}))
  = {["lang" := "sw"]} ∧
  localStorage (MainJs.clicks [OnThemeToggle; OnToggleButton]
                  (MainJs.load sample_page {["lang" := "sw"]})) !! "theme"
  = data_theme (MainJs.clicks [OnThemeToggle; OnToggleButton]
                  (MainJs.load sample_page {["lang" := "sw"]})).
Proof.
  assert ("lang" ≠ "theme") as Hk by discriminate.
  assert (effective_clicks (has_toggle sample_page) [OnToggleButton; OnNavLink 1] = 0)
    as H0 by reflexivity.
  assert (0 < effective_clicks (has_toggle sample_page) [OnThemeToggle; OnToggleButton])
    as H1 by (vm_compute; lia).
  pose proof (storage_discipline sample_page {["lang" := "sw"]}
                [OnThemeToggle; OnToggleButton]) as (Ha & _ & Hc).
  pose proof (storage_discipline sample_page {["lang" := "sw"]}
                [OnToggleButton; OnNavLink 1]) as (_ & Hb & _).
  exact (conj (Ha "lang" Hk) (conj (Hb H0) (proj1 (Hc H1)))).
Defined.

(** ** How clicks compose *)

(** A click on the menu, as a function of the world. *)
Lemma menu_dispatch_eq u th t w :
  t ≠ OnThemeToggle → wired th w →
  dispatch u t w
  = match toggleButton (page w), mainNav (page w), t with
    | Some b, Some n, OnToggleButton =>
        set_page
          (put ToggleButton
             (setAttribute "aria-expanded"
                (String_of_bool
                   (negb (bool_decide (getAttribute "aria-expanded" b = Some "true"))))
                b)
             (put MainNav (toggle "is-open" n) (page w))) w
    | Some b, Some n, OnNavLink i =>
        if decide (i < navLinks (page w)) then
          if contains "is-open" n
          then set_page
                 (put ToggleButton (setAttribute "aria-expanded" "false" b)
                    (put MainNav (remove "is-open" n) (page w))) w
          else w
        else w
    | _, _, _ => w
    end.
Proof.
  intros Ht Hw. destruct t as [|i|]; [| |done].
  - destruct (toggleButton (page w)) as [b|] eqn:Hb;
      [destruct (mainNav (page w)) as [n|] eqn:Hn|].
    + by apply (dispatch_toggle u th).
    + apply (dispatch_toggle_none u th); [done|]. intros [_ [? ?]]. congruence.
    + apply (dispatch_toggle_none u th); [done|]. intros [[? ?] _]. congruence.
  - destruct (toggleButton (page w)) as [b|] eqn:Hb;
      [destruct (mainNav (page w)) as [n|] eqn:Hn|].
    + destruct (decide (i < navLinks (page w))).
      * by apply (dispatch_link u th).
      * apply (dispatch_link_none u th); [done|right; lia].
    + apply (dispatch_link_none u th); [done|left]. intros [_ [? ?]]. congruence.
    + apply (dispatch_link_none u th); [done|left]. intros [[? ?] _]. congruence.
Qed.

(** A click on the theme toggle of [main.js], as a function of the world. *)
Lemma mainjs_theme_dispatch_eq w :
  wired true w →
  MainJs.dispatch OnThemeToggle w
  = match themeToggle (page w) with
    | Some e =>
        mkWorld
          (mkPage (toggleButton (page w)) (mainNav (page w)) (navLinks (page w))
             (Some (set_textContent (emoji_of (newTheme (data_theme w))) e))
             (setAttribute "data-theme" (newTheme (data_theme w)) (body (page w)))
             (sunIcon (page w)) (moonIcon (page w)))
          (<["theme" := newTheme (data_theme w)]> (localStorage w))
          (writes w ++ [("theme", newTheme (data_theme w))])
          (listeners w) (uncaught w)
    | None => w
    end.
Proof.
  intros Hw. destruct (themeToggle (page w)) as [e|] eqn:He.
  - by apply mainjs_dispatch_theme.
  - unfold MainJs.dispatch. apply (dispatch_theme_none _ true); auto.
Qed.

(** X11.  On [main.js], at any point of a session, a click on the menu and a
    click on the theme toggle give the same world in either order: neither
    part of the script reads or writes what the other one uses. *)
Theorem menu_theme_commute (p : Page) (st : gmap string string) (ts : list Target)
    (t : Target) :
  t ≠ OnThemeToggle →
  MainJs.dispatch OnThemeToggle (MainJs.dispatch t (MainJs.clicks ts (MainJs.load p st)))
  = MainJs.dispatch t (MainJs.dispatch OnThemeToggle (MainJs.clicks ts (MainJs.load p st))).
Proof.
  intros Ht. destruct (mainjs_session p st ts) as [Hw _].
  set (w := MainJs.clicks ts (MainJs.load p st)) in *.
  destruct (mainjs_step t w Hw) as [Hw1 _].
  destruct (mainjs_step OnThemeToggle w Hw) as [Hw2 _].
  pose proof (mainjs_theme_dispatch_eq _ Hw1) as E1.
  pose proof (menu_dispatch_eq MainJs.updateEmoji true t _ Ht Hw2) as E2.
  pose proof (mainjs_theme_dispatch_eq _ Hw) as E3.
  pose proof (menu_dispatch_eq MainJs.updateEmoji true t _ Ht Hw) as E4.
  fold MainJs.dispatch in E2, E4. rewrite E1, E2, E3, E4.
  clearbody w. clear.
  destruct w as [[[b|] [n|] k [e|] bd su mo] st' wr ls un]; simpl;
    destruct t as [|i|]; try done; simpl;
    try (destruct (decide (i < k)); [|done]);
    try (destruct (contains "is-open" n); done).
Qed.

Lemma menu_theme_commute_witness :
  MainJs.dispatch OnThemeToggle
    (MainJs.dispatch OnToggleButton (MainJs.clicks [OnNavLink 0] (MainJs.load sample_page ∅)))
  = MainJs.dispatch OnToggleButton
      (MainJs.dispatch OnThemeToggle (MainJs.clicks [OnNavLink 0] (MainJs.load sample_page ∅))).
Proof.
  assert (OnToggleButton ≠ OnThemeToggle) as Ht by discriminate.
  exact (menu_theme_commute sample_page ∅ [OnNavLink 0] OnToggleButton Ht).
Defined.

(** X12.  On [main.js], at any point of a session on a page with the menu, a
    second click on a link, the same or another, changes nothing after the
    first: the first click left the menu closed. *)
Theorem link_click_idempotent (p : Page) (st : gmap string string)
    (ts : list Target) (i j : nat) :
  has_menu p → i < navLinks p → j < navLinks p →
  MainJs.dispatch (OnNavLink j)
    (MainJs.dispatch (OnNavLink i) (MainJs.clicks ts (MainJs.load p st)))
  = MainJs.dispatch (OnNavLink i) (MainJs.clicks ts (MainJs.load p st)).
Proof.
  intros Hm Hi Hj.
  destruct (mainjs_load_menu p st Hm) as [Hm0 _].
  assert (∀ ts' k, k < navLinks p →
            link_click_ok MainJs.dispatch k (MainJs.clicks ts' (MainJs.load p st)))
    as Hok.
  { intros ts' k Hk. destruct (mainjs_session p st ts') as [Hw Hs].
    apply (link_click_step _ true); [done|by apply (step_menu _ _ Hs)|].
    rewrite (step_links _ _ Hs). by rewrite mainjs_load_eq. }
  destruct (Hok ts i Hi) as [Hopen Hclosed].
  pose proof (Hok (ts ++ [OnNavLink i]) j Hj) as [_ Hclosed'].
  rewrite mainjs_clicks_snoc in Hclosed'. apply Hclosed'.
  destruct (nav_open (MainJs.clicks ts (MainJs.load p st))) eqn:Ho.
  - by apply Hopen.
  - by rewrite Hclosed.
Qed.

Lemma link_click_idempotent_witness :
  has_menu sample_page ∧
  MainJs.dispatch (OnNavLink 2)
    (MainJs.dispatch (OnNavLink 0)
       (MainJs.clicks [OnToggleButton] (MainJs.load sample_page ∅)))
  = MainJs.dispatch (OnNavLink 0)
      (MainJs.clicks [OnToggleButton] (MainJs.load sample_page ∅)).
Proof.
  assert (has_menu sample_page) as Hm by (split; eexists; reflexivity).
  assert (0 < navLinks sample_page) as Hi by (simpl; lia).
  assert (2 < navLinks sample_page) as Hj by (simpl; lia).
  exact (conj Hm (link_click_idempotent sample_page ∅ [OnToggleButton] 0 2 Hm Hi Hj)).
Defined.

Lemma contains_toggle_twice c x e :
  contains c (toggle x (toggle x e)) = contains c e.
Proof.
  destruct (decide (c = x)) as [->|Hc].
  - rewrite !contains_toggle. apply negb_involutive.
  - by rewrite !contains_toggle_ne.
Qed.

(** X13.  On [main.js], once a session on a page with the menu is in lockstep,
    two more clicks on the toggle control give back the button as it was,
    attributes included, and a container with the same classes. *)
Theorem nav_toggle_twice (p : Page) (st : gmap string string) (ts : list Target) :
  has_menu p → lockstep (MainJs.clicks ts (MainJs.load p st)) →
  toggleButton
    (page (MainJs.dispatch OnToggleButton
             (MainJs.dispatch OnToggleButton (MainJs.clicks ts (MainJs.load p st)))))
  = toggleButton (page (MainJs.clicks ts (MainJs.load p st))) ∧
  ∀ c, contains c <$>
         mainNav
           (page (MainJs.dispatch OnToggleButton
                    (MainJs.dispatch OnToggleButton
                       (MainJs.clicks ts (MainJs.load p st)))))
       = contains c <$> mainNav (page (MainJs.clicks ts (MainJs.load p st))).
Proof.
  intros Hm Hl. destruct (mainjs_session p st ts) as [Hw Hs].
  destruct (mainjs_load_menu p st Hm) as [Hm0 _].
  apply (step_menu _ _ Hs) in Hm0.
  set (w := MainJs.clicks ts (MainJs.load p st)) in *.
  assert (OnToggleButton ≠ OnThemeToggle) as Ht by discriminate.
  destruct (mainjs_step OnToggleButton w Hw) as [Hw1 _].
  pose proof (menu_dispatch_eq MainJs.updateEmoji true OnToggleButton _ Ht Hw1) as E1.
  pose proof (menu_dispatch_eq MainJs.updateEmoji true OnToggleButton _ Ht Hw) as E2.
  fold MainJs.dispatch in E1, E2. rewrite E1, E2.
  clearbody w. clear E1 E2 Hw1 Hw Hs.
  destruct Hm0 as [[b Hb] [n Hn]].
  destruct w as [[tb mn k tt bd su mo] st' wr ls un]. simpl in *. subst tb mn.
  simpl. rewrite getAttribute_setAttribute. split.
  - destruct Hl as [Ho Hc]. unfold nav_open, aria_expanded in Ho, Hc. simpl in *.
    destruct b as [at_ cl tx sy].
    unfold setAttribute, getAttribute, set_attributes in *. simpl in *.
    f_equal. f_equal. rewrite insert_insert_eq.
    apply insert_id.
    destruct (contains "is-open" n).
    + by rewrite Ho.
    + by rewrite Hc.
  - intros c. f_equal. apply contains_toggle_twice.
Qed.

Lemma nav_toggle_twice_witness :
  has_menu sample_page ∧
  toggleButton
    (page (MainJs.dispatch OnToggleButton
             (MainJs.dispatch OnToggleButton
                (MainJs.clicks [OnToggleButton] (MainJs.load sample_page ∅)))))
  = toggleButton (page (MainJs.clicks [OnToggleButton] (MainJs.load sample_page ∅))).
Proof.
  assert (has_menu sample_page) as Hm by (split; eexists; reflexivity).
  assert (lockstep (MainJs.clicks [OnToggleButton] (MainJs.load sample_page ∅))) as Hl.
  { split; intros H; vm_compute in H |- *; congruence. }
  exact (conj Hm (proj1 (nav_toggle_twice sample_page ∅ [OnToggleButton] Hm Hl))).
Defined.

(** ** The listener table *)

Lemma mainjs_dispatch_listeners t w :
  wired true w → listeners (MainJs.dispatch t w) = listeners w.
Proof.
  intros Hw. destruct (decide (t = OnThemeToggle)) as [->|Ht].
  - by destruct (mainjs_theme_step w Hw) as (_ & (_ & _ & _ & Hl & _) & _).
  - by destruct (nav_step MainJs.updateEmoji true t w Ht Hw)
      as (_ & (_ & _ & _ & _ & _ & _ & _ & Hl & _) & _).
Qed.

Lemma iconjs_dispatch_listeners th t w :
  wired th w → (th = true → has_icons (page w) = true) →
  listeners (IconJs.dispatch t w) = listeners w.
Proof.
  intros Hw Hi. destruct (decide (t = OnThemeToggle)) as [->|Ht].
  - by destruct (iconjs_theme_step th w Hw Hi) as (_ & (_ & _ & _ & Hl & _) & _).
  - by destruct (nav_step IconJs.updateIcons th t w Ht Hw)
      as (_ & (_ & _ & _ & _ & _ & _ & _ & Hl & _) & _).
Qed.

Lemma listening_at_most_one t (th : bool) p :
  (length (listening t (nav_listeners p ++ (if th then theme_listeners p else [])))
   ≤ 1)%nat.
Proof.
  rewrite listening_app, listening_nav_part, listening_theme_part, length_app.
  destruct (toggleButton p), (mainNav p), t as [|i|], th, (themeToggle p);
    simpl; try lia; destruct (decide _); simpl; lia.
Qed.

(** X14.  In both page scripts the listeners are those attached by the load and
    no click adds or removes one: one on the toggle control and one on each
    link when the menu is there, one on the theme toggle when it is there
    (and, in the icon variant, the icons too).  So a click runs at most one
    listener. *)
Theorem listeners_fixed (p : Page) (st : gmap string string) (ts : list Target) :
  listeners (MainJs.clicks ts (MainJs.load p st))
  = nav_listeners p ++ theme_listeners p ∧
  listeners (IconJs.clicks ts (IconJs.load p st))
  = nav_listeners p ++ (if has_icons p then theme_listeners p else []) ∧
  (∀ t, (length (listening t (listeners (MainJs.clicks ts (MainJs.load p st))))
         ≤ 1)%nat) ∧
  (∀ t, (length (listening t (listeners (IconJs.clicks ts (IconJs.load p st))))
         ≤ 1)%nat).
Proof.
  assert (listeners (MainJs.clicks ts (MainJs.load p st))
          = nav_listeners p ++ theme_listeners p) as Hm.
  { apply (clicks_session MainJs.updateEmoji
             (λ w, wired true w ∧
                   listeners w = nav_listeners p ++ theme_listeners p)).
    - intros t w [Hw Hl]. destruct (mainjs_step t w Hw) as [Hw' Hs].
      split_and!; try done.
      fold MainJs.dispatch. by rewrite mainjs_dispatch_listeners.
    - split; [apply mainjs_load_wired|]. by rewrite mainjs_load_eq. }
  assert (listeners (IconJs.clicks ts (IconJs.load p st))
          = nav_listeners p ++ (if has_icons p then theme_listeners p else [])) as Hi.
  { apply (clicks_session IconJs.updateIcons
             (λ w, (wired (has_icons p) w ∧
                    (has_icons p = true → has_icons (page w) = true)) ∧
                   listeners w
                   = nav_listeners p ++ (if has_icons p then theme_listeners p else []))).
    - intros t w [[Hw Hic] Hl].
      destruct (iconjs_step (has_icons p) t w (conj Hw Hic)) as [Hw' Hs].
      split_and!; try done; try apply Hw'.
      fold IconJs.dispatch. by rewrite (iconjs_dispatch_listeners (has_icons p)).
    - split; [apply iconjs_load_inv|].
      pose proof (iconjs_load_wired p st) as Hw. unfold wired in Hw. rewrite Hw.
      destruct (iconjs_load_frame p st) as (Hb & Hn & Hk & Ht & _).
      unfold nav_listeners, theme_listeners. by rewrite Hb, Hn, Hk, Ht. }
  rewrite Hm, Hi. split_and!; try done.
  - intros t. apply (listening_at_most_one t true).
  - intros t. apply listening_at_most_one.
Qed.

(** ** The service worker over its life *)

(** X15.  For every network and every sequence of install and fetch events, the
    page behind the worker receives, request by request, what it would have
    received from the network without the worker; the requests reach the
    network once each, in the order the page issued them; the caches are
    never written; and the console gains one message per install event. *)
Theorem worker_is_transparent
    (network : list ServiceWorker.Request → ServiceWorker.Request → ServiceWorker.Settled)
    (evs : list ServiceWorker.Event) (s : ServiceWorker.Scope) :
  (ServiceWorker.serve network evs s).1
  = ServiceWorker.direct network (ServiceWorker.requests evs) (ServiceWorker.sent s) ∧
  ServiceWorker.sent (ServiceWorker.serve network evs s).2
  = ServiceWorker.sent s ++ ServiceWorker.requests evs ∧
  ServiceWorker.caches (ServiceWorker.serve network evs s).2
  = ServiceWorker.caches s ∧
  ServiceWorker.console (ServiceWorker.serve network evs s).2
  = ServiceWorker.console s
    ++ replicate (ServiceWorker.installs evs) "Service Worker: Installed".
Proof.
  revert s. induction evs as [|ev evs IH]; intros s.
  - simpl. by rewrite !app_nil_r.
  - destruct ev as [|req]; simpl.
    + destruct (IH (ServiceWorker.on_install s)) as (H1 & H2 & H3 & H4).
      destruct (ServiceWorker.serve network evs (ServiceWorker.on_install s))
        as [rs s2]. simpl in *.
      rewrite H1, H2, H3, H4. destruct s; simpl. by rewrite <- app_assoc.
    + unfold ServiceWorker.intercepted, ServiceWorker.on_fetch, ServiceWorker.fetch.
      simpl.
      match goal with
      | |- context [ServiceWorker.serve network evs ?s1] =>
          destruct (IH s1) as (H1 & H2 & H3 & H4);
            destruct (ServiceWorker.serve network evs s1) as [rs s2]
      end.
      simpl in *. rewrite H1, H2, H3, H4. by rewrite <- app_assoc.
Qed.

(** ** Markup that is out of step *)

Lemma toggle_in_step_iff u th w :
  wired th w → has_menu (page w) →
  in_step (dispatch u OnToggleButton w) ↔ in_step w.
Proof.
  intros Hw [[b Hb] [n Hn]]. rewrite (dispatch_toggle u th w b n) by done.
  destruct w as [[tb mn k tt bd su mo] st wr ls un].
  unfold in_step, nav_open, aria_expanded. simpl in *. subst tb mn. simpl.
  rewrite contains_toggle, getAttribute_setAttribute.
  destruct (contains "is-open" n); case_bool_decide as Ha; simpl;
    intuition congruence.
Qed.

Lemma load_in_step_mirrored w p :
  toggleButton (page w) = toggleButton p → mainNav (page w) = mainNav p →
  has_menu p → in_step w → mirrored p.
Proof.
  intros Hb Hn _ Hin btn nav Eb En.
  unfold in_step, nav_open, aria_expanded in Hin.
  by rewrite Hb, Hn, Eb, En in Hin.
Qed.

Lemma mainjs_in_step_iff ts w :
  wired true w → has_menu (page w) →
  Forall (λ t, ∀ i, t ≠ OnNavLink i) ts →
  in_step (MainJs.clicks ts w) ↔ in_step w.
Proof.
  revert w. induction ts as [|t ts IH]; intros w Hw Hm Hts; [done|].
  apply Forall_cons in Hts as [Ht Hts].
  change (MainJs.clicks (t :: ts) w) with (MainJs.clicks ts (MainJs.dispatch t w)).
  destruct (mainjs_step t w Hw) as [Hw' Hs].
  rewrite IH; [|done|by apply (step_menu _ _ Hs)|done].
  destruct t as [|i|].
  - by apply (toggle_in_step_iff _ true).
  - by destruct (Ht i).
  - destruct (mainjs_theme_step w Hw) as (_ & Ho & _).
    destruct (theme_only_nav _ _ Ho) as [Hn Ha].
    unfold in_step. by rewrite Hn, Ha.
Qed.

(** X16.  On [main.js], on a page with the menu, as long as no link is clicked
    the class and the attribute are in step during the session exactly when
    they were in the markup: a click on the toggle control flips both and
    never brings a markup that is out of step back in step. *)
Theorem in_step_iff_mirrored (p : Page) (st : gmap string string) (ts : list Target) :
  has_menu p → Forall (λ t, ∀ i, t ≠ OnNavLink i) ts →
  in_step (MainJs.clicks ts (MainJs.load p st)) ↔ mirrored p.
Proof.
  intros Hm Hts. destruct (mainjs_load_menu p st Hm) as [Hm' Hin].
  rewrite mainjs_in_step_iff; [|apply mainjs_load_wired|done|done].
  split; [|done].
  apply load_in_step_mirrored; [by rewrite mainjs_load_eq..|done].
Qed.

Lemma in_step_iff_mirrored_witness :
  has_menu skewed_page ∧
  ¬ mirrored skewed_page ∧
  ¬ in_step (MainJs.clicks [OnToggleButton; OnThemeToggle; OnToggleButton]
               (MainJs.load skewed_page ∅)).
Proof.
  assert (has_menu skewed_page) as Hm by (split; eexists; reflexivity).
  assert (Forall (λ t, ∀ i, t ≠ OnNavLink i)
            [OnToggleButton; OnThemeToggle; OnToggleButton]) as Hts
    by (repeat constructor; discriminate).
  assert (¬ mirrored skewed_page) as Hn.
  { intros H. specialize (H _ _ eq_refl eq_refl). vm_compute in H.
    destruct H as [_ H]. discriminate (H eq_refl). }
  pose proof (in_step_iff_mirrored skewed_page ∅ _ Hm Hts) as [H _].
  exact (conj Hm (conj Hn (λ Hin, Hn (H Hin)))).
Defined.
